(** * Cycles light-tree direct lighting: kernel_path_surface.h

    A shallow embedding of [intern/cycles/kernel/kernel_path_surface.h]:
    the direct light connection ([accum_light_contribution]), the split
    heuristic ([split]), the recursive light-tree traversal
    ([accum_light_tree_contribution]) and the two surface bounce routines.

    The kernel computes in [float] and [double].  The embedding is written
    once over an interface of arithmetic operations ([Arith]) and read at two
    instances: [IEEE] (binary32 / binary64, round to nearest even, bit exact
    and executable), which is the arithmetic of the kernel, and [Exact]
    (real numbers), which says what the same formulas compute when nothing
    is rounded. *)

From Stdlib Require Import ZArith QArith List Bool Lia Reals Lra Psatz.
From Stdlib Require Import Floats.SpecFloat.
Import ListNotations.

Set Implicit Arguments.

Local Open Scope Z_scope.

(** ** Machine integers *)

(** C [int]: 32 bits, two's complement, written as [Z] with the wrap-around
    spelled out. *)
Definition int := Z.

Definition wrap32 (z : Z) : int :=
  (z + 2 ^ 31) mod 2 ^ 32 - 2 ^ 31.

Definition int_add (a b : int) : int := wrap32 (a + b).
Definition int_mul (a b : int) : int := wrap32 (a * b).
Definition int_incr (a : int) : int := int_add a 1.

(** [x & mask] used as a condition. *)
Definition has_flag (x mask : int) : bool := negb (Z.land x mask =? 0).

(** ** Arithmetic interface *)

(** The operations the kernel applies to [float] and [double] values.
    [float_as_int] is the [__float_as_int] reinterpretation of a texture slot
    that stores an integer. *)
Class Arith : Type := {
  float : Type;
  double : Type;
  f_zero : float;
  f_one : float;
  f_half : float;
  FLT_MAX : float;
  f_add : float -> float -> float;
  f_sub : float -> float -> float;
  f_mul : float -> float -> float;
  f_div : float -> float -> float;
  f_neg : float -> float;
  f_eqb : float -> float -> bool;
  f_leb : float -> float -> bool;
  fminf : float -> float -> float;
  float_as_int : float -> int;
  d_zero : double;
  d_one : double;
  d_three : double;
  d_add : double -> double -> double;
  d_sub : double -> double -> double;
  d_mul : double -> double -> double;
  d_div : double -> double -> double;
  d_sqrt : double -> double;
  d_eqb : double -> double -> bool;
  d_leb : double -> double -> bool;
  d_ltb : double -> double -> bool;
  double_of_float : float -> double;
  double_of_int : int -> double
}.

(** ** IEEE 754 instance *)

Module Binary32.
Definition prec : Z := 24.
Definition emax : Z := 128.
Definition of_Z (n : Z) : spec_float := binary_normalize prec emax n 0 false.
Definition add := SFadd prec emax.
Definition sub := SFsub prec emax.
Definition mul := SFmul prec emax.
Definition div := SFdiv prec emax.
Definition max_float : spec_float := SFmax_float prec emax.

(** Decimal literal [n/d] with [n], [d] small integers: the nearest
    binary32 value, as the compiler produces it for [0.1f], [0.75f]. *)
Definition lit (n d : Z) : spec_float := div (of_Z n) (of_Z d).

(** C [fminf]: a NaN operand is dropped. *)
Definition fmin (x y : spec_float) : spec_float :=
  match SFcompare x y with
  | Some Lt => x
  | Some _ => y
  | None => match x with S754_nan => y | _ => x end
  end.

(** Bit pattern of a binary32 value read as a signed 32-bit integer. *)
Definition bits (x : spec_float) : int :=
  match x with
  | S754_zero false => 0
  | S754_zero true => - 2 ^ 31
  | S754_infinity false => 2139095040
  | S754_infinity true => -8388608
  | S754_nan => 2143289344
  | S754_finite s m e =>
      let b := (e + 149) * 2 ^ 23 + Zpos m in
      if s then b - 2 ^ 31 else b
  end.

(** The binary32 value whose bit pattern is the integer [n], for the
    integers a tree node stores ([0 <= n < 2^23]: a subnormal). *)
Definition of_bits (n : int) : spec_float :=
  match n with
  | Zpos p => S754_finite false p (-149)
  | _ => S754_zero false
  end.
End Binary32.

Module Binary64.
Definition prec : Z := 53.
Definition emax : Z := 1024.
Definition of_Z (n : Z) : spec_float := binary_normalize prec emax n 0 false.
Definition add := SFadd prec emax.
Definition sub := SFsub prec emax.
Definition mul := SFmul prec emax.
Definition div := SFdiv prec emax.
Definition sqrt := SFsqrt prec emax.

(** [(double)x] for a binary32 [x]: exact, the mantissa is realigned. *)
Definition of_float (x : spec_float) : spec_float :=
  match x with
  | S754_finite s m e => binary_round prec emax s m e
  | _ => x
  end.
End Binary64.

Definition IEEE : Arith := {|
  float := spec_float;
  double := spec_float;
  f_zero := S754_zero false;
  f_one := Binary32.of_Z 1;
  f_half := Binary32.lit 1 2;
  FLT_MAX := Binary32.max_float;
  f_add := Binary32.add;
  f_sub := Binary32.sub;
  f_mul := Binary32.mul;
  f_div := Binary32.div;
  f_neg := SFopp;
  f_eqb := SFeqb;
  f_leb := SFleb;
  fminf := Binary32.fmin;
  float_as_int := Binary32.bits;
  d_zero := S754_zero false;
  d_one := Binary64.of_Z 1;
  d_three := Binary64.of_Z 3;
  d_add := Binary64.add;
  d_sub := Binary64.sub;
  d_mul := Binary64.mul;
  d_div := Binary64.div;
  d_sqrt := Binary64.sqrt;
  d_eqb := SFeqb;
  d_leb := SFleb;
  d_ltb := SFltb;
  double_of_float := Binary64.of_float;
  double_of_int := Binary64.of_Z
|}.

(** ** Exact instance *)

Definition Reqb (x y : R) : bool := if Req_dec_T x y then true else false.
Definition Rleb (x y : R) : bool := if Rle_dec x y then true else false.
Definition Rltb (x y : R) : bool := if Rlt_dec x y then true else false.

(** Real arithmetic with no rounding, overflow or NaN: the idealisation in
    which the spec speaks of measures and densities.  It is not the
    arithmetic of the kernel, which is [IEEE]; a statement on this instance
    says what the formulas of the code compute when nothing is rounded.
    Division is [Rdiv], which is total with [x / 0 = 0].  A slot that stores
    the integer [n] holds the real [n]. *)
Definition Exact : Arith := {|
  float := R;
  double := R;
  f_zero := 0%R;
  f_one := 1%R;
  f_half := (1 / 2)%R;
  FLT_MAX := IZR ((2 ^ 24 - 1) * 2 ^ 104);
  f_add := Rplus;
  f_sub := Rminus;
  f_mul := Rmult;
  f_div := Rdiv;
  f_neg := Ropp;
  f_eqb := Reqb;
  f_leb := Rleb;
  fminf := Rmin;
  float_as_int := Int_part;
  d_zero := 0%R;
  d_one := 1%R;
  d_three := 3%R;
  d_add := Rplus;
  d_sub := Rminus;
  d_mul := Rmult;
  d_div := Rdiv;
  d_sqrt := sqrt;
  d_eqb := Reqb;
  d_leb := Rleb;
  d_ltb := Rltb;
  double_of_float := fun x => x;
  double_of_int := IZR
|}.

(** ** Vectors and kernel data *)

Section Kernel.
Context {A : Arith}.

Record float3 : Type := make_float3 { f3x : float; f3y : float; f3z : float }.
Record float4 : Type := make_float4 { f4x : float; f4y : float; f4z : float; f4w : float }.

(** [v[i]] on a [float4]. *)
Definition float4_get (v : float4) (i : Z) : float :=
  match i with
  | 0 => f4x v
  | 1 => f4y v
  | 2 => f4z v
  | _ => f4w v
  end.

(** Modelled from the spec: the [float3] operators and [len_squared] of the
    kernel's vector header, which is not part of the sources at hand; they
    act component by component, and the squared length is the dot product
    of a vector with itself (spec 4.2, "squared distance"). *)
Definition float3_add (a b : float3) : float3 :=
  make_float3 (f_add (f3x a) (f3x b)) (f_add (f3y a) (f3y b)) (f_add (f3z a) (f3z b)).
Definition float3_sub (a b : float3) : float3 :=
  make_float3 (f_sub (f3x a) (f3x b)) (f_sub (f3y a) (f3y b)) (f_sub (f3z a) (f3z b)).
Definition float3_scale (f : float) (a : float3) : float3 :=
  make_float3 (f_mul (f3x a) f) (f_mul (f3y a) f) (f_mul (f3z a) f).
Definition float3_mul (a b : float3) : float3 :=
  make_float3 (f_mul (f3x a) (f3x b)) (f_mul (f3y a) (f3y b)) (f_mul (f3z a) (f3z b)).
Definition float3_neg (a : float3) : float3 :=
  make_float3 (f_neg (f3x a)) (f_neg (f3y a)) (f_neg (f3z a)).
Definition len_squared (a : float3) : float :=
  f_add (f_add (f_mul (f3x a) (f3x a)) (f_mul (f3y a) (f3y a))) (f_mul (f3z a) (f3z a)).

(** The part of [KernelGlobals] this file reads:
    [kernel_data.integrator.splitting_threshold] and the flattened light
    tree [__light_tree_nodes], four [float4] per node. *)
Record KernelGlobals : Type := {
  splitting_threshold : float;
  light_tree_nodes : list float4
}.

Definition float4_zero : float4 := make_float4 f_zero f_zero f_zero f_zero.

(** [kernel_tex_fetch(__light_tree_nodes, i)].  A fetch outside the texture
    is a contract violation of the caller; the model reads zeros there. *)
Definition kernel_tex_fetch (tex : list float4) (i : int) : float4 :=
  if (0 <=? i) then nth (Z.to_nat i) tex float4_zero else float4_zero.

(** ** The split heuristic *)

(** Lines 60-68 of [split]: bounding box, centroid, and the two squared
    distances that are compared. *)
Definition node_bboxMin (kg : KernelGlobals) (node_offset : int) : float3 :=
  let node1 := kernel_tex_fetch (light_tree_nodes kg) (int_add node_offset 1) in
  make_float3 (float4_get node1 0) (float4_get node1 1) (float4_get node1 2).

Definition node_bboxMax (kg : KernelGlobals) (node_offset : int) : float3 :=
  let node1 := kernel_tex_fetch (light_tree_nodes kg) (int_add node_offset 1) in
  let node2 := kernel_tex_fetch (light_tree_nodes kg) (int_add node_offset 2) in
  make_float3 (float4_get node1 3) (float4_get node2 0) (float4_get node2 1).

Definition node_centroid (kg : KernelGlobals) (node_offset : int) : float3 :=
  float3_scale f_half (float3_add (node_bboxMax kg node_offset) (node_bboxMin kg node_offset)).

Definition node_radius_squared (kg : KernelGlobals) (node_offset : int) : double :=
  double_of_float
    (len_squared (float3_sub (node_bboxMax kg node_offset) (node_centroid kg node_offset))).

Definition node_dist_squared (kg : KernelGlobals) (P : float3) (node_offset : int) : double :=
  double_of_float (len_squared (float3_sub (node_centroid kg node_offset) P)).

(** Lines 73-101 of [split]: the variance estimate (eq. 8, 9 and 10). *)
Definition split_variance (kg : KernelGlobals) (P : float3) (node_offset : int) : double :=
  let radius_squared := node_radius_squared kg node_offset in
  let dist_squared := node_dist_squared kg P node_offset in
  let radius := d_sqrt radius_squared in
  let dist := d_sqrt dist_squared in
  let a := d_sub dist radius in
  let b := d_add dist radius in
  let g_mean := d_div d_one (d_mul a b) in
  let g_mean_squared := d_mul g_mean g_mean in
  let a3 := d_mul (d_mul a a) a in
  let b3 := d_mul (d_mul b b) b in
  let g_variance :=
    d_sub (d_div (d_sub b3 a3) (d_mul (d_mul (d_mul d_three (d_sub b a)) a3) b3))
          g_mean_squared in
  let node0 := kernel_tex_fetch (light_tree_nodes kg) node_offset in
  let node3 := kernel_tex_fetch (light_tree_nodes kg) (int_add node_offset 3) in
  let energy := double_of_float (float4_get node0 0) in
  let e_variance := double_of_float (float4_get node3 3) in
  let num_emitters := double_of_int (float_as_int (float4_get node0 3)) in
  let num_emitters_squared := d_mul num_emitters num_emitters in
  let e_mean := d_div energy num_emitters in
  let e_mean_squared := d_mul e_mean e_mean in
  d_mul (d_add (d_mul e_variance (d_add g_variance g_mean_squared))
               (d_mul e_mean_squared g_variance))
        num_emitters_squared.

(** Line 115: the normalised score. *)
Definition variance_normalized (kg : KernelGlobals) (P : float3) (node_offset : int) : double :=
  d_sqrt (d_sqrt (d_div d_one (d_add d_one (d_sqrt (split_variance kg P node_offset))))).

(** [split]: go down both children ([true]) or only one ([false]). *)
Definition split (kg : KernelGlobals) (P : float3) (node_offset : int) : bool :=
  let threshold := double_of_float (splitting_threshold kg) in
  if d_eqb threshold d_zero then false
  else if d_eqb threshold d_one then true
  else if d_leb (node_dist_squared kg P node_offset) (node_radius_squared kg node_offset)
  then true
  else d_ltb (variance_normalized kg P node_offset) threshold.

(** ** Kernel records *)

(** Types the kernel headers declare and this file only passes along. *)
Class KernelTypes : Type := {
  differential3 : Type;
  VolumeStack : Type;
  ShaderClosure : Type;
  ShaderDataRest : Type;
  LightSampleRest : Type;
  PathStateRest : Type
}.

Context {T : KernelTypes}.

(** [ShaderData]: the fields read here, the closures and the rest kept
    opaque. *)
Record ShaderData : Type := {
  sd_P : float3;
  sd_N : float3;
  sd_Ng : float3;
  sd_time : float;
  sd_flag : int;
  sd_ray_length : float;
  sd_dP : differential3;
  sd_rest : ShaderDataRest
}.

Record LightSample : Type := {
  ls_pdf : float;
  ls_rest : LightSampleRest
}.

Record Ray : Type := {
  ray_P : float3;
  ray_D : float3;
  ray_t : float;
  ray_dP : differential3;
  ray_dD : differential3;
  ray_time : float
}.

(** [PathState]: bounce count, flags, random stream, the MIS bookkeeping
    ([min_ray_pdf], [ray_pdf], [ray_t] of the state), the denoising weight
    and the volume stack. *)
Record PathState : Type := {
  ps_bounce : int;
  ps_flag : int;
  ps_rng_hash : int;
  ps_min_ray_pdf : float;
  ps_ray_pdf : float;
  ps_ray_t : float;
  ps_denoising_feature_weight : float;
  ps_volume_stack : VolumeStack;
  ps_rest : PathStateRest
}.

(** The radiance accumulator and the BSDF evaluation record with the
    accumulation routines of the accumulate header. *)
Class Radiance : Type := {
  PathRadiance : Type;
  PathRadianceState : Type;
  BsdfEval : Type;
  path_radiance_accum_light :
    PathRadiance -> PathState -> float3 -> BsdfEval -> float3 -> float -> bool -> PathRadiance;
  path_radiance_accum_total_light :
    PathRadiance -> PathState -> float3 -> BsdfEval -> PathRadiance;
  bsdf_eval_is_zero : BsdfEval -> bool;
  path_radiance_bsdf_bounce :
    KernelGlobals -> PathRadianceState -> float3 -> BsdfEval -> float -> int -> int ->
    PathRadianceState * float3
}.

(** Node access and importance of the light tree. *)
Class LightTree : Type := {
  (** [(secondChildOffset, distribution_id, num_emitters)] of a node. *)
  update_parent_node : KernelGlobals -> int -> int * int * int;
  calc_node_importance : KernelGlobals -> float3 -> float3 -> int -> float
}.

Context {Rd : Radiance} {LT : LightTree}.

(** Sampling, shading and path-state routines called from this file.  Each
    is a function of what it reads; what the C routine writes through a
    pointer is returned. *)
Class Shading : Type := {
  light_point_sample :
    KernelGlobals -> float -> float -> float -> float3 -> int -> int -> LightSample;
  path_state_rng_light_termination : KernelGlobals -> PathState -> float;
  (** [Some (light_ray, L_light, is_lamp)] when the routine returns true. *)
  direct_emission :
    KernelGlobals -> ShaderData -> ShaderData -> LightSample -> PathState -> Ray -> float ->
    option (Ray * BsdfEval * bool);
  (** [(blocked, shadow)]. *)
  shadow_blocked :
    KernelGlobals -> ShaderData -> ShaderData -> PathState -> Ray -> bool * float3;
  (** The content of a local [Ray] that was declared and never written. *)
  indeterminate_ray : Ray;
  path_state_rng_2D : KernelGlobals -> PathState -> int -> float * float;
  path_branched_rng_2D :
    KernelGlobals -> int -> PathState -> int -> int -> int -> float * float;
  (** [(label, bsdf_eval, omega_in, domega_in, pdf)]. *)
  shader_bsdf_sample :
    KernelGlobals -> ShaderData -> float -> float ->
    int * BsdfEval * float3 * differential3 * float;
  shader_bsdf_sample_closure :
    KernelGlobals -> ShaderData -> ShaderClosure -> float -> float ->
    int * BsdfEval * float3 * differential3 * float;
  sc_sample_weight : ShaderClosure -> float;
  path_state_next : KernelGlobals -> PathState -> int -> PathState;
  path_state_branch : PathState -> int -> int -> PathState;
  path_state_volume_next : KernelGlobals -> PathState -> bool * PathState;
  kernel_volume_stack_enter_exit : KernelGlobals -> ShaderData -> VolumeStack -> VolumeStack;
  ray_offset : float3 -> float3 -> float3;
  normalize : float3 -> float3;
  float_of_int : int -> float;
  PRNG_BSDF_U : int;
  LABEL_TRANSMIT : int;
  LABEL_TRANSPARENT : int;
  SD_BSDF : int;
  SD_HAS_ONLY_VOLUME : int;
  (** Compile-time features ([#ifdef]). *)
  feature_DENOISING_FEATURES : bool;
  feature_RAY_DIFFERENTIALS : bool;
  feature_OBJECT_MOTION : bool;
  feature_VOLUME : bool;
  feature_LAMP_MIS : bool
}.

Context {Sh : Shading}.

(** ** Direct light connection *)

(** [accum_light_contribution].  The out-parameters [light_ray], [L_light]
    and [is_lamp] are locals of the callers that are never read back; the
    accumulator [L] is the effect. *)
Definition accum_light_contribution (kg : KernelGlobals) (sd emission_sd : ShaderData)
    (ls : LightSample) (state : PathState) (light_ray : Ray) (L : PathRadiance)
    (terminate : float) (throughput : float3) (scale : float) : PathRadiance :=
  match direct_emission kg sd emission_sd ls state light_ray terminate with
  | Some (light_ray, L_light, is_lamp) =>
      let '(blocked, shadow) := shadow_blocked kg sd emission_sd state light_ray in
      if negb blocked then
        path_radiance_accum_light L state (float3_scale scale throughput) L_light shadow
          scale is_lamp
      else
        path_radiance_accum_total_light L state (float3_scale scale throughput) L_light
  | None => L
  end.

(** ** Light tree traversal *)

(** Lines 195-209: the stochastic choice between the two children, giving
    the rescaled random number, the chosen offset and the new pdf factor. *)
Definition choose_child (I_L I_R randu pdf_factor : float) (child_offsetL child_offsetR : int)
    : float * int * float :=
  let P_L := f_div I_L (f_add I_L I_R) in
  if f_leb randu P_L then
    (f_div randu P_L, child_offsetL, f_mul pdf_factor P_L)
  else
    (f_div (f_sub (f_mul randu (f_add I_L I_R)) I_L) I_R, child_offsetR,
     f_mul pdf_factor (f_sub f_one P_L)).

Definition with_pdf (ls : LightSample) (pdf : float) : LightSample :=
  {| ls_pdf := pdf; ls_rest := ls_rest ls |}.

(** Lines 143-168: a leaf was found. *)
Definition leaf_contribution (kg : KernelGlobals) (randu randv : float)
    (distribution_id num_emitters : int) (pdf_factor : float) (throughput : float3)
    (L : PathRadiance) (state : PathState) (sd emission_sd : ShaderData)
    (num_lights num_lights_fail : int) : PathRadiance * int * int :=
  if num_emitters =? 1 then
    let num_lights := int_incr num_lights in
    let ls := light_point_sample kg randu randv (sd_time sd) (sd_P sd) (ps_bounce state)
                distribution_id in
    let ls := with_pdf ls (f_mul (ls_pdf ls) pdf_factor) in
    if f_eqb (ls_pdf ls) f_zero then (L, num_lights, num_lights_fail)
    else
      let terminate := path_state_rng_light_termination kg state in
      (accum_light_contribution kg sd emission_sd ls state indeterminate_ray L terminate
         throughput f_one,
       num_lights, num_lights_fail)
  else (L, num_lights, num_lights_fail).

(** [accum_light_tree_contribution].  The recursion follows the child
    offsets stored in the tree; [fuel] bounds its depth and [None] means the
    bound was reached.  The accumulator and the two counters, written through
    pointers in C, are returned. *)
Fixpoint accum_light_tree_contribution (fuel : nat) (kg : KernelGlobals)
    (randu randv : float) (offset : int) (pdf_factor : float) (can_split : bool)
    (throughput : float3) (L : PathRadiance) (state : PathState)
    (sd emission_sd : ShaderData) (num_lights num_lights_fail : int)
    : option (PathRadiance * int * int) :=
  match fuel with
  | O => None
  | S fuel =>
      let P := sd_P sd in
      let N := sd_N sd in
      let '(secondChildOffset, distribution_id, num_emitters) :=
        update_parent_node kg offset in
      if secondChildOffset =? -1 then
        Some (leaf_contribution kg randu randv distribution_id num_emitters pdf_factor
                throughput L state sd emission_sd num_lights num_lights_fail)
      else
        let child_offsetL := int_add offset 4 in
        let child_offsetR := int_mul 4 secondChildOffset in
        if can_split && split kg P offset then
          match accum_light_tree_contribution fuel kg randu randv child_offsetL
                  pdf_factor true throughput L state sd emission_sd
                  num_lights num_lights_fail with
          | Some (L, num_lights, num_lights_fail) =>
              accum_light_tree_contribution fuel kg randu randv child_offsetR
                pdf_factor true throughput L state sd emission_sd
                num_lights num_lights_fail
          | None => None
          end
        else
          let I_L := calc_node_importance kg P N child_offsetL in
          let I_R := calc_node_importance kg P N child_offsetR in
          if f_eqb I_L f_zero && f_eqb I_R f_zero then
            Some (L, num_lights, int_incr num_lights_fail)
          else
            let '(randu, offset, pdf_factor) :=
              choose_child I_L I_R randu pdf_factor child_offsetL child_offsetR in
            accum_light_tree_contribution fuel kg randu randv offset pdf_factor
              false throughput L state sd emission_sd num_lights num_lights_fail
  end.

(** ** Surface bounce *)

Definition set_mis (state : PathState) (min_ray_pdf ray_pdf ray_t : float) : PathState :=
  {| ps_bounce := ps_bounce state;
     ps_flag := ps_flag state;
     ps_rng_hash := ps_rng_hash state;
     ps_min_ray_pdf := min_ray_pdf;
     ps_ray_pdf := ray_pdf;
     ps_ray_t := ray_t;
     ps_denoising_feature_weight := ps_denoising_feature_weight state;
     ps_volume_stack := ps_volume_stack state;
     ps_rest := ps_rest state |}.

Definition set_denoising_feature_weight (state : PathState) (w : float) : PathState :=
  {| ps_bounce := ps_bounce state;
     ps_flag := ps_flag state;
     ps_rng_hash := ps_rng_hash state;
     ps_min_ray_pdf := ps_min_ray_pdf state;
     ps_ray_pdf := ps_ray_pdf state;
     ps_ray_t := ps_ray_t state;
     ps_denoising_feature_weight := w;
     ps_volume_stack := ps_volume_stack state;
     ps_rest := ps_rest state |}.

Definition set_volume_stack (state : PathState) (v : VolumeStack) : PathState :=
  {| ps_bounce := ps_bounce state;
     ps_flag := ps_flag state;
     ps_rng_hash := ps_rng_hash state;
     ps_min_ray_pdf := ps_min_ray_pdf state;
     ps_ray_pdf := ps_ray_pdf state;
     ps_ray_t := ps_ray_t state;
     ps_denoising_feature_weight := ps_denoising_feature_weight state;
     ps_volume_stack := v;
     ps_rest := ps_rest state |}.

(** [#ifdef __VOLUME__ if(label & LABEL_TRANSMIT) kernel_volume_stack_enter_exit]. *)
Definition volume_enter_exit (kg : KernelGlobals) (sd : ShaderData) (label : int)
    (state : PathState) : PathState :=
  if feature_VOLUME && has_flag label LABEL_TRANSMIT then
    set_volume_stack state (kernel_volume_stack_enter_exit kg sd (ps_volume_stack state))
  else state.

(** The new ray origin: offset along [Ng], against it when transmitting. *)
Definition bounce_origin (sd : ShaderData) (label : int) : float3 :=
  ray_offset (sd_P sd)
    (if has_flag label LABEL_TRANSMIT then float3_neg (sd_Ng sd) else sd_Ng sd).

(** What a bounce routine leaves behind: the returned flag and the four
    objects it writes through pointers. *)
Record BounceResult : Type := {
  br_ok : bool;
  br_throughput : float3;
  br_state : PathState;
  br_L_state : PathRadianceState;
  br_ray : Ray
}.

(** [kernel_branched_path_surface_bounce]. *)
Definition kernel_branched_path_surface_bounce (kg : KernelGlobals) (sd : ShaderData)
    (sc : ShaderClosure) (sample num_samples : int) (throughput : float3)
    (state : PathState) (L_state : PathRadianceState) (ray : Ray)
    (sum_sample_weight : float) : BounceResult :=
  let '(bsdf_u, bsdf_v) :=
    path_branched_rng_2D kg (ps_rng_hash state) state sample num_samples PRNG_BSDF_U in
  let '(label, bsdf_eval, bsdf_omega_in, bsdf_domega_in, bsdf_pdf) :=
    shader_bsdf_sample_closure kg sd sc bsdf_u bsdf_v in
  if f_eqb bsdf_pdf f_zero || bsdf_eval_is_zero bsdf_eval then
    {| br_ok := false; br_throughput := throughput; br_state := state;
       br_L_state := L_state; br_ray := ray |}
  else
    (* modify throughput *)
    let '(L_state, throughput) :=
      path_radiance_bsdf_bounce kg L_state throughput bsdf_eval bsdf_pdf
        (ps_bounce state) label in
    let state :=
      if feature_DENOISING_FEATURES then
        set_denoising_feature_weight state
          (f_mul (ps_denoising_feature_weight state)
             (f_div (sc_sample_weight sc)
                (f_mul sum_sample_weight (float_of_int num_samples))))
      else state in
    (* modify path state *)
    let state := path_state_next kg state label in
    (* setup ray *)
    let ray :=
      {| ray_P := bounce_origin sd label;
         ray_D := normalize bsdf_omega_in;
         ray_t := FLT_MAX;
         ray_dP := if feature_RAY_DIFFERENTIALS then sd_dP sd else ray_dP ray;
         ray_dD := if feature_RAY_DIFFERENTIALS then bsdf_domega_in else ray_dD ray;
         ray_time := if feature_OBJECT_MOTION then sd_time sd else ray_time ray |} in
    (* enter/exit volume *)
    let state := volume_enter_exit kg sd label state in
    (* branch RNG state *)
    let state := path_state_branch state sample num_samples in
    (* set MIS state *)
    let state :=
      set_mis state (fminf bsdf_pdf FLT_MAX) bsdf_pdf
        (if feature_LAMP_MIS then f_zero else ps_ray_t state) in
    {| br_ok := true; br_throughput := throughput; br_state := state;
       br_L_state := L_state; br_ray := ray |}.

(** [ray->t] after a bounce of the unbranched routine. *)
Definition bounce_ray_t (state : PathState) (sd : ShaderData) (ray : Ray) : float :=
  if ps_bounce state =? 0 then f_sub (ray_t ray) (sd_ray_length sd) else FLT_MAX.

(** [kernel_path_surface_bounce]. *)
Definition kernel_path_surface_bounce (kg : KernelGlobals) (sd : ShaderData)
    (throughput : float3) (state : PathState) (L_state : PathRadianceState) (ray : Ray)
    : BounceResult :=
  if has_flag (sd_flag sd) SD_BSDF then
    let '(bsdf_u, bsdf_v) := path_state_rng_2D kg state PRNG_BSDF_U in
    let '(label, bsdf_eval, bsdf_omega_in, bsdf_domega_in, bsdf_pdf) :=
      shader_bsdf_sample kg sd bsdf_u bsdf_v in
    if f_eqb bsdf_pdf f_zero || bsdf_eval_is_zero bsdf_eval then
      {| br_ok := false; br_throughput := throughput; br_state := state;
         br_L_state := L_state; br_ray := ray |}
    else
      (* modify throughput *)
      let '(L_state, throughput) :=
        path_radiance_bsdf_bounce kg L_state throughput bsdf_eval bsdf_pdf
          (ps_bounce state) label in
      (* set labels *)
      let state :=
        if negb (has_flag label LABEL_TRANSPARENT) then
          set_mis state (fminf bsdf_pdf (ps_min_ray_pdf state)) bsdf_pdf
            (if feature_LAMP_MIS then f_zero else ps_ray_t state)
        else state in
      (* update path state *)
      let state := path_state_next kg state label in
      (* setup ray *)
      let ray :=
        {| ray_P := bounce_origin sd label;
           ray_D := normalize bsdf_omega_in;
           ray_t := bounce_ray_t state sd ray;
           ray_dP := if feature_RAY_DIFFERENTIALS then sd_dP sd else ray_dP ray;
           ray_dD := if feature_RAY_DIFFERENTIALS then bsdf_domega_in else ray_dD ray;
           ray_time := ray_time ray |} in
      (* enter/exit volume *)
      let state := volume_enter_exit kg sd label state in
      {| br_ok := true; br_throughput := throughput; br_state := state;
         br_L_state := L_state; br_ray := ray |}
  else if feature_VOLUME && has_flag (sd_flag sd) SD_HAS_ONLY_VOLUME then
    let '(ok, state) := path_state_volume_next kg state in
    if negb ok then
      {| br_ok := false; br_throughput := throughput; br_state := state;
         br_L_state := L_state; br_ray := ray |}
    else
      let ray :=
        {| ray_P := ray_offset (sd_P sd) (float3_neg (sd_Ng sd));
           ray_D := ray_D ray;
           ray_t := bounce_ray_t state sd ray;
           ray_dP := if feature_RAY_DIFFERENTIALS then sd_dP sd else ray_dP ray;
           ray_dD := ray_dD ray;
           ray_time := ray_time ray |} in
      let state :=
        set_volume_stack state (kernel_volume_stack_enter_exit kg sd (ps_volume_stack state)) in
      {| br_ok := true; br_throughput := throughput; br_state := state;
         br_L_state := L_state; br_ray := ray |}
  else
    (* no bsdf or volume? *)
    {| br_ok := false; br_throughput := throughput; br_state := state;
       br_L_state := L_state; br_ray := ray |}.

(** The result of a bounce routine that gave up: false, and the four
    objects as they were passed in. *)
Definition untouched (throughput : float3) (state : PathState)
    (L_state : PathRadianceState) (ray : Ray) : BounceResult :=
  {| br_ok := false; br_throughput := throughput; br_state := state;
     br_L_state := L_state; br_ray := ray |}.

(** ** The path of a traversal that does not split *)

(** Where such a traversal ends: at a leaf, with the random number and the
    pdf factor it hands to the leaf, or at an interior node whose two
    children have importance zero.  [path] lists the choices from the start
    node on, [true] for the left child. *)
Inductive arrival : Type :=
| Arrived (path : list bool) (offset : int) (randu pdf_factor : float)
| Failed (path : list bool) (offset : int).

Definition arrival_push (go_left : bool) (a : arrival) : arrival :=
  match a with
  | Arrived path offset randu pdf_factor => Arrived (go_left :: path) offset randu pdf_factor
  | Failed path offset => Failed (go_left :: path) offset
  end.

(** The [else] branch of [accum_light_tree_contribution] followed down to
    its end, recording the choices. *)
Fixpoint descend (fuel : nat) (kg : KernelGlobals) (P N : float3) (randu : float)
    (offset : int) (pdf_factor : float) : option arrival :=
  match fuel with
  | O => None
  | S fuel =>
      let '(secondChildOffset, _, _) := update_parent_node kg offset in
      if secondChildOffset =? -1 then Some (Arrived [] offset randu pdf_factor)
      else
        let child_offsetL := int_add offset 4 in
        let child_offsetR := int_mul 4 secondChildOffset in
        let I_L := calc_node_importance kg P N child_offsetL in
        let I_R := calc_node_importance kg P N child_offsetR in
        if f_eqb I_L f_zero && f_eqb I_R f_zero then Some (Failed [] offset)
        else
          let go_left := f_leb randu (f_div I_L (f_add I_L I_R)) in
          let '(randu, offset, pdf_factor) :=
            choose_child I_L I_R randu pdf_factor child_offsetL child_offsetR in
          option_map (arrival_push go_left) (descend fuel kg P N randu offset pdf_factor)
  end.

(** What the traversal does once [descend] has ended. *)
Definition contribution_at (kg : KernelGlobals) (randv : float) (throughput : float3)
    (L : PathRadiance) (state : PathState) (sd emission_sd : ShaderData)
    (num_lights num_lights_fail : int) (a : arrival) : PathRadiance * int * int :=
  match a with
  | Arrived _ offset randu pdf_factor =>
      let '(_, distribution_id, num_emitters) := update_parent_node kg offset in
      leaf_contribution kg randu randv distribution_id num_emitters pdf_factor
        throughput L state sd emission_sd num_lights num_lights_fail
  | Failed _ _ => (L, num_lights, int_incr num_lights_fail)
  end.

End Kernel.

(** ** Branch probabilities in exact arithmetic *)

Section BranchProbabilities.
Context {LT : @LightTree Exact}.
Variable kg : @KernelGlobals Exact.
Variables P N : @float3 Exact.

Local Open Scope R_scope.

(** The child of an interior node on the given side. *)
Definition child_offset (offset : int) (go_left : bool) : int :=
  let '(secondChildOffset, _, _) := update_parent_node kg offset in
  if go_left then int_add offset 4%Z else int_mul 4%Z secondChildOffset.

(** [P_L = I_L / (I_L + I_R)] at an interior node. *)
Definition left_probability (offset : int) : R :=
  let I_L := calc_node_importance kg P N (child_offset offset true) in
  let I_R := calc_node_importance kg P N (child_offset offset false) in
  I_L / (I_L + I_R).

Definition branch_probability (offset : int) (go_left : bool) : R :=
  if go_left then left_probability offset else 1 - left_probability offset.

(** Product of the branch probabilities along a path. *)
Fixpoint branch_product (offset : int) (path : list bool) : R :=
  match path with
  | [] => 1
  | go_left :: path =>
      branch_probability offset go_left * branch_product (child_offset offset go_left) path
  end.

(** Lower end of the interval of draws that follow a path. *)
Fixpoint path_lo (offset : int) (path : list bool) : R :=
  match path with
  | [] => 0
  | go_left :: path =>
      (if go_left then 0 else left_probability offset)
      + branch_probability offset go_left * path_lo (child_offset offset go_left) path
  end.

End BranchProbabilities.

(** * The radiance accumulator of the specification *)

Section SpecRadiance.
Context {A : Arith} {T : KernelTypes}.

(** Modelled from the spec: the radiance accumulator, whose declaration and
    accumulation routines are not part of the sources at hand.  Spec 4.4
    names two channels: the visible radiance and the "total light"
    (unshadowed) estimate kept for denoising. *)
Record Channels : Type := { visible : float3; total_light : float3 }.

(** Modelled from the spec: [path_radiance_accum_light], called for an
    unoccluded sample.  It adds the weighted evaluation times the
    transmittance to the visible channel and still records the unshadowed
    estimate. *)
Definition spec_accum_light (L : Channels) (state : PathState) (throughput : float3)
    (bsdf_eval : float3) (shadow : float3) (shadow_fac : float) (is_lamp : bool)
    : Channels :=
  {| visible := float3_add (visible L) (float3_mul (float3_mul throughput bsdf_eval) shadow);
     total_light := float3_add (total_light L) (float3_mul throughput bsdf_eval) |}.

(** Modelled from the spec: [path_radiance_accum_total_light], called for an
    occluded sample.  It records the unshadowed estimate only. *)
Definition spec_accum_total_light (L : Channels) (state : PathState) (throughput : float3)
    (bsdf_eval : float3) : Channels :=
  {| visible := visible L;
     total_light := float3_add (total_light L) (float3_mul throughput bsdf_eval) |}.

(** Modelled from the spec: [bsdf_eval_is_zero], "the evaluated BSDF is
    identically zero" (spec 4.5). *)
Definition spec_bsdf_eval_is_zero (bsdf_eval : float3) : bool :=
  f_eqb (f3x bsdf_eval) f_zero && f_eqb (f3y bsdf_eval) f_zero && f_eqb (f3z bsdf_eval) f_zero.

(** Modelled from the spec: [path_radiance_bsdf_bounce], "update throughput
    by BSDF-eval / pdf" (spec 4.5). *)
Definition spec_bsdf_bounce (kg : KernelGlobals) (L_state : unit) (throughput : float3)
    (bsdf_eval : float3) (bsdf_pdf : float) (bounce label : int) : unit * float3 :=
  (L_state,
   float3_mul throughput
     (make_float3 (f_div (f3x bsdf_eval) bsdf_pdf) (f_div (f3y bsdf_eval) bsdf_pdf)
        (f_div (f3z bsdf_eval) bsdf_pdf))).

Definition SpecRadiance : Radiance := {|
  PathRadiance := Channels;
  PathRadianceState := unit;
  BsdfEval := float3;
  path_radiance_accum_light := spec_accum_light;
  path_radiance_accum_total_light := spec_accum_total_light;
  bsdf_eval_is_zero := spec_bsdf_eval_is_zero;
  path_radiance_bsdf_bounce := spec_bsdf_bounce
|}.

End SpecRadiance.

(** * Sample data *)

(** A small scene in either arithmetic: a light tree with three leaves and
    simple stand-ins for the sampling and shading routines, used to run the
    embedding on concrete inputs. *)
Module Scene.
Section Scene.
Context {A : Arith}.

Definition types : KernelTypes := {|
  differential3 := unit;
  VolumeStack := unit;
  ShaderClosure := unit;
  ShaderDataRest := unit;
  LightSampleRest := unit;
  PathStateRest := unit
|}.

(** Node 0 is the root with children node 1 and node 4; node 1 has the
    leaves node 2 and node 3; node 4 is a leaf.  A node sits at four times
    its index.  [imp] gives the importance of the node at an offset. *)
Definition tree (imp : int -> float) : LightTree := {|
  update_parent_node := fun _ offset =>
    if offset =? 0 then (4, 0, 3)
    else if offset =? 4 then (3, 0, 2)
    else (-1, offset / 4, 1);
  calc_node_importance := fun _ _ _ offset => imp offset
|}.

(** Two leaves under the root: node 1 and node 2. *)
Definition two_leaves (imp_A imp_B : float) : LightTree := {|
  update_parent_node := fun _ offset =>
    if offset =? 0 then (2, 0, 2) else (-1, offset / 4, 1);
  calc_node_importance := fun _ _ _ offset =>
    if offset =? 4 then imp_A else if offset =? 8 then imp_B else f_zero
|}.

Definition origin : float3 := make_float3 f_zero f_zero f_zero.
Definition ones : float3 := make_float3 f_one f_one f_one.

Definition ray0 : Ray (T := types) :=
  Build_Ray (T := types) origin origin f_one tt tt f_zero.

Definition sd0 : ShaderData (T := types) :=
  Build_ShaderData (T := types) origin ones ones f_zero 1 f_one tt tt.

Definition state0 (min_ray_pdf : float) : PathState (T := types) :=
  Build_PathState (T := types) 0 0 0 min_ray_pdf f_one f_one f_one tt tt.

Definition L_state0 : PathRadianceState (Radiance := SpecRadiance (T := types)) := tt.
Definition closure0 : ShaderClosure (KernelTypes := types) := tt.
Definition diff0 : differential3 (KernelTypes := types) := tt.

Definition dark : Channels := {| visible := origin; total_light := origin |}.

Definition next_bounce (state : PathState (T := types)) : PathState (T := types) :=
  Build_PathState (T := types) (int_incr (ps_bounce state)) (ps_flag state)
    (ps_rng_hash state) (ps_min_ray_pdf state) (ps_ray_pdf state) (ps_ray_t state)
    (ps_denoising_feature_weight state) (ps_volume_stack state) (ps_rest state).

(** Stand-ins: the light sampler returns the density [light_pdf], the
    emission is [ones] for every sample, the shadow ray is blocked or not as
    [occluded] says and lets [shadow] through, and the BSDF sampler returns
    the label, the evaluation and the density given. *)
Definition shading (light_pdf : float) (occluded : bool) (shadow : float3)
    (label : int) (bsdf_eval : float3) (bsdf_pdf : float)
    : Shading (T := types) (Rd := SpecRadiance) :=
  Build_Shading (T := types) (Rd := SpecRadiance)
    (* light_point_sample *)
    (fun _ _ _ _ _ _ _ => Build_LightSample (T := types) light_pdf tt)
    (* path_state_rng_light_termination *)
    (fun _ _ => f_zero)
    (* direct_emission *)
    (fun _ _ _ _ _ ray _ => Some (ray, ones, true))
    (* shadow_blocked *)
    (fun _ _ _ _ _ => (occluded, shadow))
    (* indeterminate_ray *)
    ray0
    (* path_state_rng_2D, path_branched_rng_2D *)
    (fun _ _ _ => (f_half, f_half))
    (fun _ _ _ _ _ _ => (f_half, f_half))
    (* shader_bsdf_sample, shader_bsdf_sample_closure *)
    (fun _ _ _ _ => (label, bsdf_eval, ones, tt, bsdf_pdf))
    (fun _ _ _ _ _ => (label, bsdf_eval, ones, tt, bsdf_pdf))
    (* sc_sample_weight *)
    (fun _ => f_one)
    (* path_state_next, path_state_branch, path_state_volume_next *)
    (fun _ state _ => next_bounce state)
    (fun state _ _ => state)
    (fun _ state => (true, state))
    (* kernel_volume_stack_enter_exit, ray_offset, normalize, float_of_int *)
    (fun _ _ stack => stack)
    (fun P _ => P)
    (fun v => v)
    (fun _ => f_one)
    (* PRNG_BSDF_U, LABEL_TRANSMIT, LABEL_TRANSPARENT, SD_BSDF, SD_HAS_ONLY_VOLUME *)
    0 2 64 1 2
    (* features *)
    true true true true true.

End Scene.
End Scene.

(** Sample data in the IEEE instance. *)
Module Sample.
Definition flt (n d : Z) : @float IEEE := Binary32.lit n d.
Definition zero : @float IEEE := S754_zero false.
Definition vec (x y z : @float IEEE) : @float3 IEEE := make_float3 (A := IEEE) x y z.

(** The four texture slots of an interior node: energy, right child,
    distribution id and emitter count; the bounding box; the energy
    variance in the last component. *)
Definition node (energy : @float IEEE) (second_child num_emitters : int)
    (bboxMin bboxMax : @float3 IEEE) (e_variance : @float IEEE) : list (@float4 IEEE) :=
  [ make_float4 (A := IEEE) energy (Binary32.of_bits second_child) zero
      (Binary32.of_bits num_emitters);
    make_float4 (A := IEEE) (f3x bboxMin) (f3y bboxMin) (f3z bboxMin) (f3x bboxMax);
    make_float4 (A := IEEE) (f3y bboxMax) (f3z bboxMax) zero zero;
    make_float4 (A := IEEE) zero zero zero e_variance ].

(** Two emitters of total energy 2 in the box [-1,1]^3. *)
Definition unit_box : list (@float4 IEEE) :=
  node (flt 2 1) 2 2 (vec (flt (-1) 1) (flt (-1) 1) (flt (-1) 1))
    (vec (flt 1 1) (flt 1 1) (flt 1 1)) zero.

(** Two emitters of total energy 2 at the same point, the origin. *)
Definition point_cluster : list (@float4 IEEE) :=
  node (flt 2 1) 2 2 (vec zero zero zero) (vec zero zero zero) zero.

(** Two emitters of total energy 2, one millimetre apart on the x axis. *)
Definition thin_cluster : list (@float4 IEEE) :=
  node (flt 2 1) 2 2 (vec (flt (-1) 1000) zero zero) (vec (flt 1 1000) zero zero) zero.

Definition globals (threshold : @float IEEE) (tree : list (@float4 IEEE))
    : @KernelGlobals IEEE :=
  Build_KernelGlobals (A := IEEE) threshold tree.
End Sample.

(** The three-leaf tree in exact arithmetic: importance 3 for node 1 and 1
    for the other nodes, threshold 0. *)
Module ExactSample.
Definition importance (offset : int) : R := if offset =? 4 then 3%R else 1%R.
Definition tree : @LightTree Exact := Scene.tree (A := Exact) importance.
Definition globals : @KernelGlobals Exact := Build_KernelGlobals (A := Exact) 0%R [].
Definition origin : @float3 Exact := Scene.origin (A := Exact).
End ExactSample.

(** * What the traversal hands to a leaf *)

Section PathFactor.
Context {A : Arith} {LT : LightTree}.

(** Lines 171-172: the child of an interior node on the given side,
    [true] for the left one. *)
Definition path_child (kg : KernelGlobals) (offset : int) (go_left : bool) : int :=
  let '(secondChildOffset, _, _) := update_parent_node kg offset in
  if go_left then int_add offset 4 else int_mul 4 secondChildOffset.

(** The node a path ends at. *)
Fixpoint path_end (kg : KernelGlobals) (offset : int) (path : list bool) : int :=
  match path with
  | [] => offset
  | go_left :: path => path_end kg (path_child kg offset go_left) path
  end.

(** Line 195: [P_L] as the kernel computes it. *)
Definition path_P_L (kg : KernelGlobals) (P N : float3) (offset : int) : float :=
  let I_L := calc_node_importance kg P N (path_child kg offset true) in
  let I_R := calc_node_importance kg P N (path_child kg offset false) in
  f_div I_L (f_add I_L I_R).

(** Lines 202 and 208: [pdf_factor] after the multiplications along a path,
    done one after the other in the kernel's arithmetic. *)
Fixpoint path_factor (kg : KernelGlobals) (P N : float3) (offset : int)
    (pdf_factor : float) (path : list bool) : float :=
  match path with
  | [] => pdf_factor
  | go_left :: path =>
      let P_L := path_P_L kg P N offset in
      path_factor kg P N (path_child kg offset go_left)
        (f_mul pdf_factor (if go_left then P_L else f_sub f_one P_L)) path
  end.

End PathFactor.

(** * The numbers behind binary32 values *)

(** The rational number a finite binary float stands for; infinities and
    NaN stand for no number and are sent to 0. *)
Definition SF2Q (x : spec_float) : Q :=
  match x with
  | S754_finite s m e =>
      ((if s then inject_Z (Z.neg m) else inject_Z (Z.pos m)) * Qpower (2 # 1) e)%Q
  | _ => 0%Q
  end.

Definition float3_Q (v : @float3 IEEE) : Q * Q * Q :=
  (SF2Q (f3x v), SF2Q (f3y v), SF2Q (f3z v)).

Definition Q3_dist_squared (a b : Q * Q * Q) : Q :=
  let '(ax, ay, az) := a in
  let '(bx, by_, bz) := b in
  ((ax - bx) * (ax - bx) + (ay - by_) * (ay - by_) + (az - bz) * (az - bz))%Q.

(** The bounding sphere as the spec describes it, computed without rounding
    on the box stored in the tree: the centre is the midpoint of the box and
    the squared radius is the squared distance from the centre to the max
    corner.  [true] when [P] lies strictly inside. *)
Definition spec_sphere_center (kg : @KernelGlobals IEEE) (node_offset : int) : Q * Q * Q :=
  let '(ax, ay, az) := float3_Q (node_bboxMin kg node_offset) in
  let '(bx, by_, bz) := float3_Q (node_bboxMax kg node_offset) in
  (((ax + bx) / (2 # 1))%Q, ((ay + by_) / (2 # 1))%Q, ((az + bz) / (2 # 1))%Q).

Definition spec_inside_bounding_sphere (kg : @KernelGlobals IEEE) (P : @float3 IEEE)
    (node_offset : int) : bool :=
  let center := spec_sphere_center kg node_offset in
  let radius_squared :=
    Q3_dist_squared (float3_Q (node_bboxMax kg node_offset)) center in
  let dist_squared := Q3_dist_squared center (float3_Q P) in
  negb (Qle_bool radius_squared dist_squared).

(** Sample data far from the origin: two emitters of total energy 1 in the
    box from (16777218, -1/4, -1/4) to (16777220, 1/4, 1/4), the shading
    point (16777218, 0, 0) on its min face, and the threshold 1/2. *)
Module FarSample.
Definition box : list (@float4 IEEE) :=
  Sample.node (Sample.flt 1 1) 2 2
    (Sample.vec (Sample.flt 16777218 1) (Sample.flt (-1) 4) (Sample.flt (-1) 4))
    (Sample.vec (Sample.flt 16777220 1) (Sample.flt 1 4) (Sample.flt 1 4)) Sample.zero.
Definition globals : @KernelGlobals IEEE := Sample.globals (Sample.flt 1 2) box.
Definition P : @float3 IEEE := Sample.vec (Sample.flt 16777218 1) Sample.zero Sample.zero.
End FarSample.

(** A box of ordinary size near the origin,
    from (1.0020372867584229, -2, -2) to (1.2000880241394043, 2, 2), and a
    shading point on the x axis at 3.931222677230835, within a few units in
    the last place of the surface of its sphere; the threshold is 1/1000. *)
Module NearSample.
Definition box : list (@float4 IEEE) :=
  Sample.node (Sample.flt 1 1) 2 2
    (Sample.vec (S754_finite false 8405698 (-23)) (Sample.flt (-2) 1) (Sample.flt (-2) 1))
    (Sample.vec (S754_finite false 10067068 (-23)) (Sample.flt 2 1) (Sample.flt 2 1))
    Sample.zero.
Definition globals : @KernelGlobals IEEE := Sample.globals (Sample.flt 1 1000) box.
Definition P : @float3 IEEE :=
  Sample.vec (S754_finite false 16488743 (-22)) Sample.zero Sample.zero.
End NearSample.

(** The box [-1,1]^3 in exact arithmetic, with two emitters of total energy
    2 and the threshold 1/2, and the shading point (1/2, 1/2, 0). *)
Module ExactBox.
Definition box : list (@float4 Exact) :=
  [ make_float4 (A := Exact) 2%R 0%R 0%R 2%R;
    make_float4 (A := Exact) (-1)%R (-1)%R (-1)%R 1%R;
    make_float4 (A := Exact) 1%R 1%R 0%R 0%R;
    make_float4 (A := Exact) 0%R 0%R 0%R 0%R ].
Definition globals : @KernelGlobals Exact := Build_KernelGlobals (A := Exact) (1 / 2)%R box.
Definition P : @float3 Exact := make_float3 (A := Exact) (1 / 2)%R (1 / 2)%R 0%R.
End ExactBox.

(** * Shape of the light tree *)

Section TreeShape.
Context {A : Arith} {LT : LightTree}.

(** The leaves below [offset], each with the path that leads to it, from
    left to right; [None] when the subtree is deeper than [fuel]. *)
Fixpoint leaf_paths (fuel : nat) (kg : KernelGlobals) (offset : int)
    : option (list (list bool * int)) :=
  match fuel with
  | O => None
  | S fuel =>
      let '(secondChildOffset, _, _) := update_parent_node kg offset in
      if secondChildOffset =? -1 then Some [([], offset)]
      else
        match leaf_paths fuel kg (int_add offset 4),
              leaf_paths fuel kg (int_mul 4 secondChildOffset) with
        | Some l, Some r =>
            Some (map (fun pl => (true :: fst pl, snd pl)) l
                  ++ map (fun pl => (false :: fst pl, snd pl)) r)
        | _, _ => None
        end
  end.

End TreeShape.

Section LeafVisit.
Context {A : Arith} {T : KernelTypes} {Rd : Radiance} {LT : LightTree} {Sh : Shading}.

(** The work of the traversal at one leaf, on the accumulator and the two
    counters. *)
Definition visit_leaf (kg : KernelGlobals) (randu randv pdf_factor : float)
    (throughput : float3) (state : PathState) (sd emission_sd : ShaderData)
    (acc : PathRadiance * int * int) (leaf : int) : PathRadiance * int * int :=
  let '(L, num_lights, num_lights_fail) := acc in
  let '(_, distribution_id, num_emitters) := update_parent_node kg leaf in
  leaf_contribution kg randu randv distribution_id num_emitters pdf_factor throughput L
    state sd emission_sd num_lights num_lights_fail.

End LeafVisit.

(** * Connecting a path to the lights *)

(** How a routine that may trip [kernel_assert] or run out of fuel ends. *)
Inductive outcome (X : Type) : Type :=
| Done (x : X)
| AssertionFailed
| OutOfFuel.

Arguments Done {X} x.
Arguments AssertionFailed {X}.
Arguments OutOfFuel {X}.

Definition bind {X Y : Type} (m : outcome X) (f : X -> outcome Y) : outcome Y :=
  match m with
  | Done x => f x
  | AssertionFailed => AssertionFailed
  | OutOfFuel => OutOfFuel
  end.

(** The values [0, 1, ..., n-1] of the counter of [for(int i = 0; i < n; i++)]. *)
Definition loop_range (n : int) : list int := map Z.of_nat (seq 0 (Z.to_nat n)).

Section ConnectLight.
Context {A : Arith} {T : KernelTypes} {Rd : Radiance} {LT : LightTree} {Sh : Shading}.

(** The integrator settings, light-group tables and light samplers that the
    two connect routines read or call, none of them declared in this file. *)
Class LightSelection : Type := {
  use_light_bvh : KernelGlobals -> bool;
  use_direct_light : KernelGlobals -> bool;
  num_all_lights : KernelGlobals -> int;
  pdf_triangles : KernelGlobals -> float;
  mesh_light_samples : KernelGlobals -> int;
  (** [kernel_tex_fetch(__light_group_sample_prob, group)]. *)
  light_group_sample_prob : KernelGlobals -> int -> float;
  (** [(group, randu)], [randu] being rescaled in place. *)
  light_group_distribution_sample : KernelGlobals -> float -> int * float;
  (** [(randu, index, pdf)]. *)
  light_distant_sample : KernelGlobals -> float3 -> float -> float * int * float;
  light_background_sample : KernelGlobals -> float3 -> float -> float * int * float;
  light_select_reached_max_bounces : KernelGlobals -> int -> int -> bool;
  light_select_num_samples : KernelGlobals -> int -> int;
  ceil_to_int : float -> int;
  cmj_hash : int -> int -> int;
  path_branched_rng_light_termination :
    KernelGlobals -> int -> PathState -> int -> int -> float;
  (** [Some ls] when the sampler returns true. *)
  lamp_light_sample : KernelGlobals -> int -> float -> float -> float3 -> option LightSample;
  light_sample :
    KernelGlobals -> float -> float -> float -> float3 -> float3 -> int -> option LightSample;
  LIGHTGROUP_TREE : int;
  LIGHTGROUP_DISTANT : int;
  LIGHTGROUP_BACKGROUND : int;
  PRNG_LIGHT_U : int;
  SD_BSDF_HAS_EVAL : int;
  PATH_RAY_SHADOW_CATCHER : int;
  f_two : float;
  feature_EMISSION : bool;
  feature_SHADOW_TRICKS : bool
}.

Context {LS : LightSelection}.

Definition ray_with_time (ray : Ray) (time : float) : Ray :=
  {| ray_P := ray_P ray; ray_D := ray_D ray; ray_t := ray_t ray;
     ray_dP := ray_dP ray; ray_dD := ray_dD ray; ray_time := time |}.

(** The local [light_ray] of a connect routine before its first use:
    [#ifdef __OBJECT_MOTION__ light_ray.time = sd->time]. *)
Definition initial_light_ray (sd : ShaderData) : Ray :=
  if feature_OBJECT_MOTION then ray_with_time indeterminate_ray (sd_time sd)
  else indeterminate_ray.

(** [light_ray] after a call of [accum_light_contribution]: what
    [direct_emission] wrote; when that routine returns false its interface
    returns no ray and the ray is as it was. *)
Definition light_ray_after (kg : KernelGlobals) (sd emission_sd : ShaderData)
    (ls : LightSample) (state : PathState) (light_ray : Ray) (terminate : float) : Ray :=
  match direct_emission kg sd emission_sd ls state light_ray terminate with
  | Some (light_ray, _, _) => light_ray
  | None => light_ray
  end.

(** One call of [accum_light_contribution] on the pair of the accumulator
    and the local ray. *)
Definition connect_sample (kg : KernelGlobals) (sd emission_sd : ShaderData)
    (ls : LightSample) (state : PathState) (terminate : float) (throughput : float3)
    (scale : float) (acc : PathRadiance * Ray) : PathRadiance * Ray :=
  let '(L, light_ray) := acc in
  (accum_light_contribution kg sd emission_sd ls state light_ray L terminate throughput
     scale,
   light_ray_after kg sd emission_sd ls state light_ray terminate).

(** Lines 299-320: lamp sampling, one lamp after the other, each with its own
    number of samples. *)
Definition lamp_sample_step (kg : KernelGlobals) (sd emission_sd : ShaderData)
    (state : PathState) (throughput : float3) (i num_samples : int)
    (num_samples_inv : float) (lamp_rng_hash : int)
    (acc : PathRadiance * Ray) (j : int) : PathRadiance * Ray :=
  let '(light_u, light_v) :=
    path_branched_rng_2D kg lamp_rng_hash state j num_samples PRNG_LIGHT_U in
  let terminate :=
    path_branched_rng_light_termination kg lamp_rng_hash state j num_samples in
  match lamp_light_sample kg i light_u light_v (sd_P sd) with
  | Some ls =>
      connect_sample kg sd emission_sd ls state terminate throughput num_samples_inv acc
  | None => acc
  end.

Definition lamp_step (kg : KernelGlobals) (sd emission_sd : ShaderData)
    (state : PathState) (throughput : float3) (num_samples_adjust : float)
    (acc : PathRadiance * Ray) (i : int) : PathRadiance * Ray :=
  if light_select_reached_max_bounces kg i (ps_bounce state) then acc
  else
    let num_samples :=
      ceil_to_int (f_mul num_samples_adjust
                     (float_of_int (light_select_num_samples kg i))) in
    let num_samples_inv := f_div num_samples_adjust (float_of_int num_samples) in
    let lamp_rng_hash := cmj_hash (ps_rng_hash state) i in
    fold_left
      (lamp_sample_step kg sd emission_sd state throughput i num_samples num_samples_inv
         lamp_rng_hash)
      (loop_range num_samples) acc.

(** Lines 327-348: one sample of the mesh lights. *)
Definition mesh_sample_step (kg : KernelGlobals) (sd emission_sd : ShaderData)
    (state : PathState) (throughput : float3) (num_samples : int)
    (num_samples_inv : float) (acc : outcome (PathRadiance * Ray)) (j : int)
    : outcome (PathRadiance * Ray) :=
  bind acc (fun acc =>
    let '(light_u, light_v) :=
      path_branched_rng_2D kg (ps_rng_hash state) state j num_samples PRNG_LIGHT_U in
    let terminate :=
      path_branched_rng_light_termination kg (ps_rng_hash state) state j num_samples in
    (* only sample triangle lights *)
    let light_u :=
      if negb (num_all_lights kg =? 0) then f_mul f_half light_u else light_u in
    if use_light_bvh kg then AssertionFailed
    else
      match light_sample kg light_u light_v (sd_time sd) (sd_P sd) (sd_N sd)
              (ps_bounce state) with
      | Some ls =>
          let ls :=
            if negb (num_all_lights kg =? 0) then with_pdf ls (f_mul (ls_pdf ls) f_two)
            else ls in
          Done (connect_sample kg sd emission_sd ls state terminate throughput
                  num_samples_inv acc)
      | None => Done acc
      end).

(** [kernel_branched_path_surface_connect_light].  [fuel] bounds the depth
    of the tree traversal it may start. *)
Definition kernel_branched_path_surface_connect_light (fuel : nat) (kg : KernelGlobals)
    (sd emission_sd : ShaderData) (state : PathState) (throughput : float3)
    (num_samples_adjust : float) (L : PathRadiance) (sample_all_lights : int)
    : outcome PathRadiance :=
  if negb feature_EMISSION then Done L
  else if negb (has_flag (sd_flag sd) SD_BSDF_HAS_EVAL) then Done L
  else
    let light_ray := initial_light_ray sd in
    let use_splitting := negb (f_eqb (splitting_threshold kg) f_zero) in
    if use_light_bvh kg && use_splitting then
      let '(randu, randv) := path_state_rng_2D kg state PRNG_LIGHT_U in
      (* sample light group distribution *)
      let '(group, randu) := light_group_distribution_sample kg randu in
      let group_prob := light_group_sample_prob kg group in
      if group =? LIGHTGROUP_TREE then
        match accum_light_tree_contribution fuel kg randu randv 0 group_prob true
                throughput L state sd emission_sd 0 0 with
        | Some (L, _, _) => Done L
        | None => OutOfFuel
        end
      else
        bind
          (if group =? LIGHTGROUP_DISTANT then
             Done (light_distant_sample kg (sd_P sd) randu)
           else if group =? LIGHTGROUP_BACKGROUND then
             Done (light_background_sample kg (sd_P sd) randu)
           else AssertionFailed)
          (fun '(randu, index, pdf) =>
             (* sample a point on the given distant/background light *)
             let ls := light_point_sample kg randu randv (sd_time sd) (sd_P sd)
                         (ps_bounce state) index in
             (* combine pdfs *)
             let ls := with_pdf ls (f_mul (ls_pdf ls) group_prob) in
             if f_eqb (ls_pdf ls) f_zero then Done L
             else
               let terminate := path_state_rng_light_termination kg state in
               Done (accum_light_contribution kg sd emission_sd ls state light_ray L
                       terminate throughput num_samples_adjust))
    else if negb (sample_all_lights =? 0) then
      (* lamp sampling *)
      let acc :=
        fold_left (lamp_step kg sd emission_sd state throughput num_samples_adjust)
          (loop_range (num_all_lights kg)) (L, light_ray) in
      (* mesh light sampling *)
      if negb (f_eqb (pdf_triangles kg) f_zero) then
        let num_samples :=
          ceil_to_int (f_mul num_samples_adjust (float_of_int (mesh_light_samples kg))) in
        let num_samples_inv := f_div num_samples_adjust (float_of_int num_samples) in
        bind
          (fold_left
             (mesh_sample_step kg sd emission_sd state throughput num_samples
                num_samples_inv)
             (loop_range num_samples) (Done acc))
          (fun acc => Done (fst acc))
      else Done (fst acc)
    else
      (* sample one light at random *)
      let '(light_u, light_v) := path_state_rng_2D kg state PRNG_LIGHT_U in
      let terminate := path_state_rng_light_termination kg state in
      match light_sample kg light_u light_v (sd_time sd) (sd_P sd) (sd_N sd)
              (ps_bounce state) with
      | Some ls =>
          Done (accum_light_contribution kg sd emission_sd ls state light_ray L terminate
                  throughput num_samples_adjust)
      | None => Done L
      end.

(** [kernel_path_surface_connect_light]. *)
Definition kernel_path_surface_connect_light (fuel : nat) (kg : KernelGlobals)
    (sd emission_sd : ShaderData) (throughput : float3) (state : PathState)
    (L : PathRadiance) : outcome PathRadiance :=
  if negb feature_EMISSION then Done L
  else if negb (use_direct_light kg && has_flag (sd_flag sd) SD_BSDF_HAS_EVAL) then Done L
  else if feature_SHADOW_TRICKS && has_flag (ps_flag state) PATH_RAY_SHADOW_CATCHER then
    kernel_branched_path_surface_connect_light fuel kg sd emission_sd state throughput
      f_one L 1
  else
    (* sample illumination from lights to find path contribution *)
    let '(light_u, light_v) := path_state_rng_2D kg state PRNG_LIGHT_U in
    let light_ray := initial_light_ray sd in
    match light_sample kg light_u light_v (sd_time sd) (sd_P sd) (sd_N sd)
            (ps_bounce state) with
    | Some ls =>
        let terminate := path_state_rng_light_termination kg state in
        Done (accum_light_contribution kg sd emission_sd ls state light_ray L terminate
                throughput f_one)
    | None => Done L
    end.

End ConnectLight.

(** Stand-ins for the light selection of the sample scene: the light BVH
    switched on or off, the light group that is drawn, the number of lamps,
    the sample count that [ceil_to_int] yields, and the mesh light share. *)
Module Lights.
Section Lights.
Context {A : Arith}.

Definition selection (bvh : bool) (group lamps samples : int) (mesh_pdf : float)
    : LightSelection (T := Scene.types) :=
  Build_LightSelection (T := Scene.types)
    (* use_light_bvh, use_direct_light, num_all_lights, pdf_triangles *)
    (fun _ => bvh) (fun _ => true) (fun _ => lamps) (fun _ => mesh_pdf)
    (* mesh_light_samples, light_group_sample_prob, light_group_distribution_sample *)
    (fun _ => 1) (fun _ _ => f_one) (fun _ randu => (group, randu))
    (* light_distant_sample, light_background_sample *)
    (fun _ _ randu => (randu, 0, f_one)) (fun _ _ randu => (randu, 0, f_one))
    (* light_select_reached_max_bounces, light_select_num_samples, ceil_to_int *)
    (fun _ _ _ => false) (fun _ _ => samples) (fun _ => samples)
    (* cmj_hash, path_branched_rng_light_termination *)
    (fun hash i => hash + i) (fun _ _ _ _ _ => f_zero)
    (* lamp_light_sample, light_sample *)
    (fun _ _ _ _ _ => Some (Build_LightSample (T := Scene.types) f_one tt))
    (fun _ _ _ _ _ _ _ => Some (Build_LightSample (T := Scene.types) f_one tt))
    (* LIGHTGROUP_TREE, LIGHTGROUP_DISTANT, LIGHTGROUP_BACKGROUND *)
    0 1 2
    (* PRNG_LIGHT_U, SD_BSDF_HAS_EVAL, PATH_RAY_SHADOW_CATCHER *)
    2 1 4
    (* f_two, feature_EMISSION, feature_SHADOW_TRICKS *)
    (f_add f_one f_one) true true.

End Lights.
End Lights.

(** * Properties *)

Unset Implicit Arguments.

(** ** Arithmetic facts *)

(** Comparison facts of the IEEE instance. *)

Lemma SFeqb_zero_inv (x : spec_float) :
  SFeqb x (S754_zero false) = true -> exists s, x = S754_zero s.
Proof.
  destruct x as [s | s | | s m e]; unfold SFeqb; simpl; try discriminate.
  - intros _. now exists s.
  - now destruct s.
  - now destruct s.
Qed.

Lemma SFeqb_finite_inv (x : spec_float) (m : positive) (e : Z) :
  SFeqb x (S754_finite false m e) = true -> x = S754_finite false m e.
Proof.
  destruct x as [s | s | | s m' e']; unfold SFeqb; simpl; try discriminate.
  - now destruct s.
  - destruct s; try discriminate.
    destruct (Z.compare_spec e' e) as [He | He | He]; try discriminate.
    intros H. subst e'.
    destruct (Pos.compare_cont Eq m' m) eqn:Hm; try discriminate.
    change (Pos.compare m' m = Eq) in Hm.
    apply Pos.compare_eq in Hm. now subst.
Qed.

Lemma SFltb_zero_not_eqb (x : spec_float) :
  SFltb (S754_zero false) x = true -> SFeqb x (S754_zero false) = false.
Proof.
  destruct x as [s | s | | s m e]; unfold SFltb, SFeqb; simpl; try discriminate;
    now destruct s.
Qed.

Lemma SFltb_SFleb (x y : spec_float) : SFltb x y = true -> SFleb x y = true.
Proof.
  unfold SFltb, SFleb. now destruct (SFcompare x y) as [[ | | ] | ].
Qed.

Lemma IEEE_positive_not_zero (x : @double IEEE) :
  d_ltb d_zero x = true -> d_eqb x d_zero = false.
Proof.
  exact (SFltb_zero_not_eqb x).
Qed.

Lemma IEEE_ltb_leb (x y : @double IEEE) : d_ltb x y = true -> d_leb x y = true.
Proof.
  exact (SFltb_SFleb x y).
Qed.

(** Comparison facts of the exact instance. *)

Lemma Reqb_refl (x : R) : Reqb x x = true.
Proof.
  unfold Reqb. now destruct (Req_dec_T x x).
Qed.

Lemma Reqb_neq (x y : R) : x <> y -> Reqb x y = false.
Proof.
  intros H. unfold Reqb. now destruct (Req_dec_T x y).
Qed.

Lemma Rleb_le (x y : R) : (x <= y)%R -> Rleb x y = true.
Proof.
  intros H. unfold Rleb. now destruct (Rle_dec x y).
Qed.

Lemma Rleb_gt (x y : R) : (y < x)%R -> Rleb x y = false.
Proof.
  intros H. unfold Rleb. destruct (Rle_dec x y); [ lra | reflexivity ].
Qed.

Lemma Rleb_true (x y : R) : Rleb x y = true -> (x <= y)%R.
Proof.
  unfold Rleb. now destruct (Rle_dec x y).
Qed.

Lemma Rleb_false (x y : R) : Rleb x y = false -> (y < x)%R.
Proof.
  unfold Rleb. destruct (Rle_dec x y); [ discriminate | lra ].
Qed.

(** ** [split] *)

Section SplitGeneric.
Context {A : Arith}.

Lemma split_threshold_zero (kg : KernelGlobals) (P : float3) (node_offset : int) :
  d_eqb (double_of_float (splitting_threshold kg)) d_zero = true ->
  split kg P node_offset = false.
Proof.
  intros H. unfold split. now rewrite H.
Qed.

Lemma split_threshold_one (kg : KernelGlobals) (P : float3) (node_offset : int) :
  d_eqb (double_of_float (splitting_threshold kg)) d_zero = false ->
  d_eqb (double_of_float (splitting_threshold kg)) d_one = true ->
  split kg P node_offset = true.
Proof.
  intros H0 H1. unfold split. now rewrite H0, H1.
Qed.

Lemma split_inside_sphere (kg : KernelGlobals) (P : float3) (node_offset : int) :
  d_eqb (double_of_float (splitting_threshold kg)) d_zero = false ->
  d_leb (node_dist_squared kg P node_offset) (node_radius_squared kg node_offset) = true ->
  split kg P node_offset = true.
Proof.
  intros H0 Hin. unfold split. rewrite H0, Hin.
  now destruct (d_eqb _ d_one).
Qed.

End SplitGeneric.

(** C4. Splitting-threshold short-circuits: whatever the shading point and
    the node, a configured threshold equal to 0 makes [split] answer false
    and a threshold equal to 1 makes it answer true.  Equality is the
    kernel's [==] on the configured [float], so the negative zero counts as
    0. *)
Theorem split_threshold_short_circuit
    (kg : @KernelGlobals IEEE) (P : @float3 IEEE) (node_offset : int) :
  (f_eqb (splitting_threshold kg) f_zero = true -> split kg P node_offset = false) /\
  (f_eqb (splitting_threshold kg) f_one = true -> split kg P node_offset = true).
Proof.
  split; intros H.
  - apply SFeqb_zero_inv in H. destruct H as [s Hs].
    apply split_threshold_zero. rewrite Hs. now destruct s.
  - apply (SFeqb_finite_inv (splitting_threshold kg) 8388608 (-23)) in H.
    apply split_threshold_one; now rewrite H.
Qed.

Lemma split_threshold_short_circuit_witness :
  split (Sample.globals (S754_zero true) Sample.unit_box)
    (Sample.vec Sample.zero Sample.zero Sample.zero) 0 = false /\
  split (Sample.globals (Sample.flt 1 1) Sample.thin_cluster)
    (Sample.vec (Sample.flt 10000 1) Sample.zero Sample.zero) 0 = true.
Proof.
  split.
  - apply (proj1 (split_threshold_short_circuit _ _ _)). reflexivity.
  - apply (proj2 (split_threshold_short_circuit _ _ _)). reflexivity.
Defined.

(** The test of line 69 in exact arithmetic is the test of the spec's
    sphere: the kernel's centroid is the midpoint of the box. *)
Lemma Exact_sphere_test (kg : @KernelGlobals Exact) (P : @float3 Exact)
    (node_offset : int) :
  let lo := node_bboxMin kg node_offset in
  let hi := node_bboxMax kg node_offset in
  let cx := ((f3x lo + f3x hi) / 2)%R in
  let cy := ((f3y lo + f3y hi) / 2)%R in
  let cz := ((f3z lo + f3z hi) / 2)%R in
  node_dist_squared kg P node_offset
    = ((cx - f3x P) * (cx - f3x P) + (cy - f3y P) * (cy - f3y P)
       + (cz - f3z P) * (cz - f3z P))%R /\
  node_radius_squared kg node_offset
    = ((f3x hi - cx) * (f3x hi - cx) + (f3y hi - cy) * (f3y hi - cy)
       + (f3z hi - cz) * (f3z hi - cz))%R.
Proof.
  intros lo hi cx cy cz.
  unfold node_dist_squared, node_radius_squared, node_centroid.
  fold lo hi. subst cx cy cz.
  destruct lo as [ax ay az], hi as [bx by_ bz], P as [px py pz].
  cbn [double_of_float len_squared float3_sub float3_scale float3_add f3x f3y f3z
       f_add f_sub f_mul f_half Exact].
  split; match goal with |- @eq _ ?a ?b => change (@eq R a b) end; field.
Qed.

(** C5, as stated, fails in binary32.  The shading point (16777218, 0, 0)
    lies strictly inside the sphere of the box from (16777218, -1/4, -1/4) to
    (16777220, 1/4, 1/4): its squared distance to the centre is 1 and the
    squared radius 9/8.  The kernel rounds the centroid to (16777220, 0, 0),
    finds the squared radius 1/8 and the squared distance 4, and with the
    threshold 1/2 [split] answers false.  Near the origin the same happens
    within a few units in the last place of the surface of the sphere, here
    with the threshold 1/1000. *)
Lemma split_inside_bounding_sphere_counterexample :
  (spec_inside_bounding_sphere FarSample.globals FarSample.P 0 = true /\
   node_centroid FarSample.globals 0
     = Sample.vec (Sample.flt 16777220 1) Sample.zero Sample.zero /\
   d_leb (node_dist_squared FarSample.globals FarSample.P 0)
         (node_radius_squared FarSample.globals 0) = false /\
   split FarSample.globals FarSample.P 0 = false) /\
  (spec_inside_bounding_sphere NearSample.globals NearSample.P 0 = true /\
   split NearSample.globals NearSample.P 0 = false).
Proof.
  repeat split; vm_compute; reflexivity.
Qed.

(** C5, amended.  For a threshold strictly between 0 and 1, [split] answers
    true for every shading point that the test of line 69 finds in the
    sphere: the squared distance to the centroid, as the kernel computes it
    in binary32, is at most the squared radius it computes, points on the
    surface included.  In exact arithmetic that test is the test of the
    sphere the claim describes (centre the midpoint of the box, squared
    radius the squared distance from the centre to the max corner), and every
    shading point strictly inside it is split. *)
Theorem split_inside_bounding_sphere :
  (forall (kg : @KernelGlobals IEEE) (P : @float3 IEEE) (node_offset : int),
     d_ltb d_zero (double_of_float (splitting_threshold kg)) = true ->
     d_ltb (double_of_float (splitting_threshold kg)) d_one = true ->
     d_leb (node_dist_squared kg P node_offset) (node_radius_squared kg node_offset) = true ->
     split kg P node_offset = true) /\
  (forall (kg : @KernelGlobals Exact) (P : @float3 Exact) (node_offset : int),
     let lo := node_bboxMin kg node_offset in
     let hi := node_bboxMax kg node_offset in
     let cx := ((f3x lo + f3x hi) / 2)%R in
     let cy := ((f3y lo + f3y hi) / 2)%R in
     let cz := ((f3z lo + f3z hi) / 2)%R in
     (0 < splitting_threshold kg < 1)%R ->
     ((cx - f3x P) * (cx - f3x P) + (cy - f3y P) * (cy - f3y P)
      + (cz - f3z P) * (cz - f3z P)
      < (f3x hi - cx) * (f3x hi - cx) + (f3y hi - cy) * (f3y hi - cy)
        + (f3z hi - cz) * (f3z hi - cz))%R ->
     split kg P node_offset = true).
Proof.
  split.
  - intros kg P node_offset Hpos _ Hin.
    apply split_inside_sphere; [ apply IEEE_positive_not_zero, Hpos | exact Hin ].
  - intros kg P node_offset lo hi cx cy cz Ht Hin.
    destruct (Exact_sphere_test kg P node_offset) as [Hd Hr].
    fold lo hi cx cy cz in Hd, Hr.
    apply split_inside_sphere.
    + apply Reqb_neq. cbn [double_of_float Exact d_zero]. lra.
    + rewrite Hd, Hr. apply Rleb_le. lra.
Qed.

Lemma split_inside_bounding_sphere_witness :
  split (Sample.globals (Sample.flt 1 1000) Sample.unit_box)
    (Sample.vec (Sample.flt 1 2) (Sample.flt 1 2) Sample.zero) 0 = true /\
  split ExactBox.globals ExactBox.P 0 = true.
Proof.
  split.
  - apply (proj1 split_inside_bounding_sphere); reflexivity.
  - apply (proj2 split_inside_bounding_sphere).
    + cbn [splitting_threshold ExactBox.globals]. lra.
    + change (node_bboxMin ExactBox.globals 0)
        with (make_float3 (A := Exact) (-1)%R (-1)%R (-1)%R).
      change (node_bboxMax ExactBox.globals 0)
        with (make_float3 (A := Exact) 1%R 1%R 1%R).
      cbn [f3x f3y f3z ExactBox.P]. lra.
Defined.

(** C6. The score computation does produce NaN, for shading points outside
    the bounding sphere.  For two emitters at one point (a bounding box
    reduced to the origin) seen from (1,0,0) the radius is 0, eq. 9 divides
    0 by 0 and the score is NaN.  For two emitters a millimetre apart seen
    from (10000,0,0) the subtraction in eq. 9 cancels to a negative variance,
    whose square root is NaN.  In both cases [split] answers false. *)
Theorem split_score_not_a_number :
  let at_point := Sample.globals (Sample.flt 1 2) Sample.point_cluster in
  let near := Sample.vec (Sample.flt 1 1) Sample.zero Sample.zero in
  let thin := Sample.globals (Sample.flt 1 2) Sample.thin_cluster in
  let far := Sample.vec (Sample.flt 10000 1) Sample.zero Sample.zero in
  (d_leb (node_dist_squared at_point near 0) (node_radius_squared at_point 0) = false /\
   variance_normalized at_point near 0 = S754_nan /\
   split at_point near 0 = false) /\
  (d_leb (node_dist_squared thin far 0) (node_radius_squared thin 0) = false /\
   d_ltb (split_variance thin far 0) d_zero = true /\
   variance_normalized thin far 0 = S754_nan /\
   split thin far 0 = false).
Proof.
  vm_compute. repeat split.
Qed.

(** ** Direct light connection *)

(** C8. Occlusion dual accounting, for the accumulator of the
    specification.  [L_light] is the evaluation delivered by
    [direct_emission], the BSDF evaluation over the density of the light
    sample.  When the shadow ray is occluded the visible channel is
    unchanged and the total-light channel grows by
    [throughput*scale*L_light]; when it is not, the visible channel grows by
    [throughput*scale*L_light*shadow], [shadow] being the transmittance. *)
Theorem occlusion_dual_accounting
    {A : Arith} {T : KernelTypes} {Sh : Shading (Rd := SpecRadiance)}
    (kg : KernelGlobals) (sd emission_sd : ShaderData) (ls : LightSample)
    (state : PathState) (ray_in : Ray) (L : Channels) (terminate : float)
    (throughput : float3) (scale : float)
    (light_ray : Ray) (L_light : float3) (is_lamp blocked : bool) (shadow : float3) :
  direct_emission (Rd := SpecRadiance) kg sd emission_sd ls state ray_in terminate
    = Some (light_ray, L_light, is_lamp) ->
  shadow_blocked (Rd := SpecRadiance) kg sd emission_sd state light_ray
    = (blocked, shadow) ->
  let L' := accum_light_contribution (Rd := SpecRadiance) kg sd emission_sd ls state
              ray_in L terminate throughput scale in
  (blocked = true ->
     visible L' = visible L /\
     total_light L'
       = float3_add (total_light L) (float3_mul (float3_scale scale throughput) L_light)) /\
  (blocked = false ->
     visible L'
       = float3_add (visible L)
           (float3_mul (float3_mul (float3_scale scale throughput) L_light) shadow)).
Proof.
  intros Hemit Hshadow L'. subst L'. unfold accum_light_contribution.
  rewrite Hemit, Hshadow.
  split; intros ->; cbn; auto.
Qed.

Lemma occlusion_dual_accounting_witness :
  let L' := accum_light_contribution (A := IEEE) (Rd := SpecRadiance)
              (Sh := Scene.shading (A := IEEE) (Sample.flt 1 2) true Scene.ones 0
                       Scene.ones (Sample.flt 1 2))
              (Sample.globals (Sample.flt 1 2) Sample.unit_box) Scene.sd0 Scene.sd0
              (Build_LightSample (T := Scene.types) (Sample.flt 1 2) tt)
              (Scene.state0 (Sample.flt 1 4)) Scene.ray0 Scene.dark Sample.zero
              Scene.ones (Sample.flt 1 2) in
  visible L' = Scene.origin /\
  total_light L' = Sample.vec (Sample.flt 1 2) (Sample.flt 1 2) (Sample.flt 1 2).
Proof.
  intros L'.
  destruct (occlusion_dual_accounting (A := IEEE)
              (Sh := Scene.shading (A := IEEE) (Sample.flt 1 2) true Scene.ones 0
                       Scene.ones (Sample.flt 1 2))
              (Sample.globals (Sample.flt 1 2) Sample.unit_box) Scene.sd0 Scene.sd0
              (Build_LightSample (T := Scene.types) (Sample.flt 1 2) tt)
              (Scene.state0 (Sample.flt 1 4)) Scene.ray0 Scene.dark Sample.zero
              Scene.ones (Sample.flt 1 2)
              Scene.ray0 Scene.ones true true Scene.ones eq_refl eq_refl) as [Hocc _].
  destruct (Hocc eq_refl) as [Hv Ht].
  split; [ exact Hv | exact Ht ].
Defined.

(** ** Light tree traversal *)

Section Traversal.
Context {A : Arith} {T : KernelTypes} {Rd : Radiance} {LT : LightTree} {Sh : Shading}.

Lemma contribution_at_push (kg : KernelGlobals) (randv : float) (throughput : float3)
    (L : PathRadiance) (state : PathState) (sd emission_sd : ShaderData)
    (num_lights num_lights_fail : int) (b : bool) (a : arrival) :
  contribution_at kg randv throughput L state sd emission_sd num_lights num_lights_fail
    (arrival_push b a)
  = contribution_at kg randv throughput L state sd emission_sd num_lights num_lights_fail a.
Proof.
  now destruct a.
Qed.

(** Without splitting the traversal is [descend] followed by the work at
    its end. *)
Lemma accum_no_split_descend (fuel : nat) (kg : KernelGlobals) (randv : float)
    (throughput : float3) (L : PathRadiance) (state : PathState)
    (sd emission_sd : ShaderData) (num_lights num_lights_fail : int) :
  forall (randu : float) (offset : int) (pdf_factor : float),
  accum_light_tree_contribution fuel kg randu randv offset pdf_factor false throughput L
    state sd emission_sd num_lights num_lights_fail
  = option_map
      (contribution_at kg randv throughput L state sd emission_sd num_lights num_lights_fail)
      (descend fuel kg (sd_P sd) (sd_N sd) randu offset pdf_factor).
Proof.
  induction fuel as [ | fuel IH]; intros randu offset pdf_factor; [ reflexivity | ].
  cbn [accum_light_tree_contribution descend].
  destruct (update_parent_node kg offset) as [[second did] ne] eqn:Hnode.
  destruct (second =? -1) eqn:Hleaf.
  - cbn. now rewrite Hnode.
  - cbn [andb].
    destruct (f_eqb (calc_node_importance kg (sd_P sd) (sd_N sd) (int_add offset 4)) f_zero
              && f_eqb (calc_node_importance kg (sd_P sd) (sd_N sd) (int_mul 4 second)) f_zero);
      [ reflexivity | ].
    destruct (choose_child _ _ randu pdf_factor _ _) as [[randu' offset'] pdf_factor'].
    rewrite IH.
    destruct (descend fuel kg (sd_P sd) (sd_N sd) randu' offset' pdf_factor') as [a | ];
      [ | reflexivity ].
    cbn. now rewrite contribution_at_push.
Qed.

(** The step at an interior node that is not split. *)
Lemma accum_interior_step (fuel : nat) (kg : KernelGlobals) (randu randv : float)
    (offset : int) (pdf_factor : float) (can_split : bool) (throughput : float3)
    (L : PathRadiance) (state : PathState) (sd emission_sd : ShaderData)
    (num_lights num_lights_fail : int) (second did ne : int) :
  update_parent_node kg offset = (second, did, ne) ->
  (second =? -1) = false ->
  can_split && split kg (sd_P sd) offset = false ->
  let I_L := calc_node_importance kg (sd_P sd) (sd_N sd) (int_add offset 4) in
  let I_R := calc_node_importance kg (sd_P sd) (sd_N sd) (int_mul 4 second) in
  f_eqb I_L f_zero && f_eqb I_R f_zero = false ->
  let P_L := f_div I_L (f_add I_L I_R) in
  accum_light_tree_contribution (S fuel) kg randu randv offset pdf_factor can_split
    throughput L state sd emission_sd num_lights num_lights_fail
  = if f_leb randu P_L then
      accum_light_tree_contribution fuel kg (f_div randu P_L) randv (int_add offset 4)
        (f_mul pdf_factor P_L) false throughput L state sd emission_sd
        num_lights num_lights_fail
    else
      accum_light_tree_contribution fuel kg
        (f_div (f_sub (f_mul randu (f_add I_L I_R)) I_L) I_R) randv (int_mul 4 second)
        (f_mul pdf_factor (f_sub f_one P_L)) false throughput L state sd emission_sd
        num_lights num_lights_fail.
Proof.
  intros Hnode Hint Hsplit I_L I_R Hnz P_L.
  cbn [accum_light_tree_contribution].
  rewrite Hnode, Hint, Hsplit.
  fold I_L I_R. rewrite Hnz.
  unfold choose_child. fold P_L.
  now destruct (f_leb randu P_L).
Qed.

Lemma accum_leaf (fuel : nat) (kg : KernelGlobals) (randu randv : float)
    (offset : int) (pdf_factor : float) (can_split : bool) (throughput : float3)
    (L : PathRadiance) (state : PathState) (sd emission_sd : ShaderData)
    (num_lights num_lights_fail : int) (did ne : int) :
  update_parent_node kg offset = (-1, did, ne) ->
  accum_light_tree_contribution (S fuel) kg randu randv offset pdf_factor can_split
    throughput L state sd emission_sd num_lights num_lights_fail
  = Some (leaf_contribution kg randu randv did ne pdf_factor throughput L state sd
            emission_sd num_lights num_lights_fail).
Proof.
  intros Hnode. cbn [accum_light_tree_contribution]. now rewrite Hnode.
Qed.

End Traversal.

(** C7. Degenerate leaf sample: at a leaf holding one emitter, when the
    density returned by the light sampler times the accumulated pdf factor
    is exactly zero, the traversal returns with the radiance accumulator as
    it was: only the count of sampled lights has moved.  The statement holds
    for every implementation of the direct light connection, also one that
    would change the accumulator at each call, so that routine is not
    invoked. *)
Theorem degenerate_leaf_sample_no_connection
    {A : Arith} {T : KernelTypes} {Rd : Radiance} {LT : LightTree} {Sh : Shading}
    (fuel : nat) (kg : KernelGlobals) (randu randv : float) (offset : int)
    (pdf_factor : float) (can_split : bool) (throughput : float3) (L : PathRadiance)
    (state : PathState) (sd emission_sd : ShaderData) (num_lights num_lights_fail : int)
    (distribution_id : int) :
  update_parent_node kg offset = (-1, distribution_id, 1) ->
  f_eqb (f_mul (ls_pdf (light_point_sample kg randu randv (sd_time sd) (sd_P sd)
                          (ps_bounce state) distribution_id))
               pdf_factor)
        f_zero = true ->
  accum_light_tree_contribution (S fuel) kg randu randv offset pdf_factor can_split
    throughput L state sd emission_sd num_lights num_lights_fail
  = Some (L, int_incr num_lights, num_lights_fail).
Proof.
  intros Hnode Hzero.
  rewrite (accum_leaf fuel kg randu randv offset pdf_factor can_split throughput L state
             sd emission_sd num_lights num_lights_fail distribution_id 1 Hnode).
  unfold leaf_contribution. cbn [Z.eqb Pos.eqb with_pdf ls_pdf].
  now rewrite Hzero.
Qed.

Lemma degenerate_leaf_sample_no_connection_witness :
  accum_light_tree_contribution (A := IEEE) (LT := Scene.tree (fun _ => Sample.flt 1 1))
    (Sh := Scene.shading (A := IEEE) Sample.zero false Scene.ones 0 Scene.ones (Sample.flt 1 2))
    1 (Sample.globals (Sample.flt 1 2) Sample.unit_box) (Sample.flt 1 4) (Sample.flt 1 4)
    16 (Sample.flt 1 1) true Scene.ones Scene.dark (Scene.state0 (Sample.flt 1 4))
    Scene.sd0 Scene.sd0 0 0
  = Some (Scene.dark, 1, 0).
Proof.
  change (Some (Scene.dark (A := IEEE), 1, 0))
    with (Some (Scene.dark (A := IEEE), int_incr 0, 0)).
  apply (degenerate_leaf_sample_no_connection (A := IEEE) (T := Scene.types)
           (Rd := SpecRadiance) (LT := Scene.tree (fun _ => Sample.flt 1 1))
           (Sh := Scene.shading (A := IEEE) Sample.zero false Scene.ones 0 Scene.ones
                    (Sample.flt 1 2))
           0 (Sample.globals (Sample.flt 1 2) Sample.unit_box) (Sample.flt 1 4)
           (Sample.flt 1 4) 16 (Sample.flt 1 1) true Scene.ones Scene.dark
           (Scene.state0 (Sample.flt 1 4)) Scene.sd0 Scene.sd0 0 0 4);
    reflexivity.
Defined.

(** With a sampler density of 1/2 instead of 0 the same leaf does reach the
    direct light connection of the sample scene, which adds to the visible
    channel. *)
Example nondegenerate_leaf_sample_connects :
  accum_light_tree_contribution (A := IEEE) (LT := Scene.tree (fun _ => Sample.flt 1 1))
    (Sh := Scene.shading (A := IEEE) (Sample.flt 1 2) false Scene.ones 0 Scene.ones
             (Sample.flt 1 2))
    1 (Sample.globals (Sample.flt 1 2) Sample.unit_box) (Sample.flt 1 4) (Sample.flt 1 4)
    16 (Sample.flt 1 1) true Scene.ones Scene.dark (Scene.state0 (Sample.flt 1 4))
    Scene.sd0 Scene.sd0 0 0
  = Some ({| visible := Scene.ones; total_light := Scene.ones |}, 1, 0).
Proof.
  reflexivity.
Qed.

(** C3. The rescaled random number leaves [0,1).  With importances 3 and 1
    the draw [u = 0.75] equals [P_L], the test [u <= P_L] sends it left and
    [u / P_L] is 1, in binary32 and in exact arithmetic alike.  With
    importances 0 and 1 the draw [u = 0] passes the same test with
    [P_L = 0]: the traversal goes to the child of importance zero with the
    random number [0/0], a NaN. *)
Theorem rescaled_draw_leaves_unit_interval :
  choose_child (A := IEEE) (Sample.flt 3 1) (Sample.flt 1 1) (Sample.flt 3 4)
      (Sample.flt 1 1) 4 8
    = (Sample.flt 1 1, 4, Sample.flt 3 4) /\
  choose_child (A := IEEE) Sample.zero (Sample.flt 1 1) Sample.zero (Sample.flt 1 1) 4 8
    = (S754_nan, 4, Sample.zero) /\
  choose_child (A := Exact) 3%R 1%R (3 / 4)%R 1%R 4 8
    = (1%R, 4, (1 * (3 / (3 + 1)))%R).
Proof.
  split; [ reflexivity | split; [ reflexivity | ] ].
  unfold choose_child. cbn [f_leb f_div f_add f_mul f_sub f_one Exact].
  unfold Rleb. destruct (Rle_dec (3 / 4) (3 / (3 + 1))) as [_ | Hn].
  - f_equal. f_equal. lra.
  - exfalso. apply Hn. lra.
Qed.

(** C2. Stochastic child choice and rescaling.  In every arithmetic, at an
    interior node that is not split and whose children do not both have
    importance zero, the traversal computes [P_L = I_L / (I_L + I_R)] and
    continues, never splitting again, in the left child with [u / P_L] and
    the pdf factor times [P_L] when [u <= P_L], and otherwise in the right
    child with [(u * (I_L + I_R) - I_L) / I_R] and the pdf factor times
    [1 - P_L].  For the tree of two leaves with importances 3 and 1 and
    threshold 0, in exact arithmetic, [u = 0.1] ends in the first leaf with
    [u' = 0.1 / 0.75] and [u = 0.9] in the second with [u' = 0.6]. *)
Theorem stochastic_child_choice :
  (forall (A : Arith) (T : KernelTypes) (Rd : Radiance) (LT : LightTree) (Sh : Shading)
          (fuel : nat) (kg : KernelGlobals) (randu randv : float) (offset : int)
          (pdf_factor : float) (can_split : bool) (throughput : float3)
          (L : PathRadiance) (state : PathState) (sd emission_sd : ShaderData)
          (num_lights num_lights_fail : int) (second did ne : int),
     update_parent_node kg offset = (second, did, ne) ->
     (second =? -1) = false ->
     can_split && split kg (sd_P sd) offset = false ->
     let I_L := calc_node_importance kg (sd_P sd) (sd_N sd) (int_add offset 4) in
     let I_R := calc_node_importance kg (sd_P sd) (sd_N sd) (int_mul 4 second) in
     f_eqb I_L f_zero && f_eqb I_R f_zero = false ->
     let P_L := f_div I_L (f_add I_L I_R) in
     accum_light_tree_contribution (S fuel) kg randu randv offset pdf_factor can_split
       throughput L state sd emission_sd num_lights num_lights_fail
     = if f_leb randu P_L then
         accum_light_tree_contribution fuel kg (f_div randu P_L) randv (int_add offset 4)
           (f_mul pdf_factor P_L) false throughput L state sd emission_sd
           num_lights num_lights_fail
       else
         accum_light_tree_contribution fuel kg
           (f_div (f_sub (f_mul randu (f_add I_L I_R)) I_L) I_R) randv (int_mul 4 second)
           (f_mul pdf_factor (f_sub f_one P_L)) false throughput L state sd emission_sd
           num_lights num_lights_fail) /\
  (forall (T : KernelTypes) (Rd : @Radiance Exact T) (Sh : @Shading Exact T Rd)
          (randv : R) (throughput : @float3 Exact) (L : @PathRadiance Exact T Rd)
          (state : @PathState Exact T) (sd emission_sd : @ShaderData Exact T)
          (num_lights num_lights_fail : int),
     let kg := Build_KernelGlobals (A := Exact) 0%R [] in
     let traverse (u : R) :=
       accum_light_tree_contribution (LT := Scene.two_leaves (A := Exact) 3%R 1%R)
         (Sh := Sh) 2 kg u randv 0 1%R true throughput L state sd emission_sd
         num_lights num_lights_fail in
     let at_leaf (id : int) (u' pdf_factor : R) :=
       Some (leaf_contribution (Sh := Sh) kg u' randv id 1 pdf_factor throughput L state
               sd emission_sd num_lights num_lights_fail) in
     traverse (1 / 10)%R = at_leaf 1 (1 / 10 / (75 / 100))%R (75 / 100)%R /\
     traverse (9 / 10)%R = at_leaf 2 (6 / 10)%R (25 / 100)%R).
Proof.
  split.
  - intros. now apply accum_interior_step with (did := did) (ne := ne).
  - intros T Rd Sh randv throughput L state sd emission_sd num_lights num_lights_fail
      kg traverse at_leaf.
    assert (Hstep : forall u,
              traverse u
              = if Rleb u (3 / (3 + 1))
                then at_leaf 1 (u / (3 / (3 + 1)))%R (1 * (3 / (3 + 1)))%R
                else at_leaf 2 ((u * (3 + 1) - 3) / 1)%R (1 * (1 - 3 / (3 + 1)))%R).
    { intros u. unfold traverse.
      rewrite (accum_interior_step (A := Exact) (LT := Scene.two_leaves (A := Exact) 3%R 1%R)
                 1 kg u randv 0 1%R true throughput L state sd emission_sd
                 num_lights num_lights_fail 2 0 2 eq_refl eq_refl).
      - change (calc_node_importance kg (sd_P sd) (sd_N sd) (int_add 0 4)) with 3%R.
        change (calc_node_importance kg (sd_P sd) (sd_N sd) (int_mul 4 2)) with 1%R.
        cbn [f_leb f_div f_add f_mul f_sub f_one Exact].
        destruct (Rleb u (3 / (3 + 1))).
        + now rewrite (accum_leaf (A := Exact) (LT := Scene.two_leaves (A := Exact) 3%R 1%R)
                         0 kg _ randv (int_add 0 4) _ false throughput L state sd
                         emission_sd num_lights num_lights_fail 1 1 eq_refl).
        + now rewrite (accum_leaf (A := Exact) (LT := Scene.two_leaves (A := Exact) 3%R 1%R)
                         0 kg _ randv (int_mul 4 2) _ false throughput L state sd
                         emission_sd num_lights num_lights_fail 2 1 eq_refl).
      - cbn [andb]. unfold split.
        change (d_eqb (double_of_float (splitting_threshold kg)) d_zero)
          with (Reqb 0 0).
        now rewrite Reqb_refl.
      - change (calc_node_importance kg (sd_P sd) (sd_N sd) (int_add 0 4)) with 3%R.
        change (f_eqb (Arith := Exact) 3%R f_zero) with (Reqb 3 0).
        rewrite Reqb_neq by lra. reflexivity. }
    split; rewrite Hstep.
    + rewrite Rleb_le by lra. unfold at_leaf. do 2 f_equal; lra.
    + rewrite Rleb_gt by lra. unfold at_leaf. do 2 f_equal; lra.
Qed.

Lemma stochastic_child_choice_witness :
  let LT := Scene.two_leaves (A := IEEE) (Sample.flt 3 1) (Sample.flt 1 1) in
  let Sh := Scene.shading (A := IEEE) (Sample.flt 1 2) false Scene.ones 0 Scene.ones
              (Sample.flt 1 2) in
  let kg := Sample.globals Sample.zero [] in
  let state := Scene.state0 (Sample.flt 1 4) in
  accum_light_tree_contribution (LT := LT) (Sh := Sh) 2 kg (Sample.flt 9 10)
    (Sample.flt 1 2) 0 (Sample.flt 1 1) true Scene.ones Scene.dark state Scene.sd0
    Scene.sd0 0 0
  = accum_light_tree_contribution (LT := LT) (Sh := Sh) 1 kg
      (Binary32.div
         (Binary32.sub
            (Binary32.mul (Sample.flt 9 10) (Binary32.add (Sample.flt 3 1) (Sample.flt 1 1)))
            (Sample.flt 3 1))
         (Sample.flt 1 1))
      (Sample.flt 1 2) 8 (Sample.flt 1 4) false Scene.ones Scene.dark state Scene.sd0
      Scene.sd0 0 0.
Proof.
  intros LT Sh kg state.
  exact (proj1 stochastic_child_choice IEEE Scene.types SpecRadiance LT Sh 1%nat kg
           (Sample.flt 9 10) (Sample.flt 1 2) 0 (Sample.flt 1 1) true Scene.ones
           Scene.dark state Scene.sd0 Scene.sd0 0 0 2 0 2
           eq_refl eq_refl eq_refl eq_refl).
Defined.

(** The two draws of the example in binary32: the same children are chosen;
    [0.1f / 0.75f] is computed as such and the second rescaled draw is
    [10066328 * 2^-24], two units in the last place below the nearest
    binary32 value to 0.6. *)
Example stochastic_child_choice_binary32 :
  choose_child (A := IEEE) (Sample.flt 3 1) (Sample.flt 1 1) (Sample.flt 1 10)
      (Sample.flt 1 1) 4 8
    = (Binary32.div (Sample.flt 1 10) (Sample.flt 3 4), 4, Sample.flt 3 4) /\
  choose_child (A := IEEE) (Sample.flt 3 1) (Sample.flt 1 1) (Sample.flt 9 10)
      (Sample.flt 1 1) 4 8
    = (S754_finite false 10066328 (-24), 8, Sample.flt 1 4) /\
  Sample.flt 6 10 = S754_finite false 10066330 (-24).
Proof.
  repeat split.
Qed.

(** ** Probability of reaching a leaf *)

Section Conservation.
Context {LT : @LightTree Exact}.
Variable kg : @KernelGlobals Exact.
Variables P N : @float3 Exact.

Local Open Scope R_scope.

(** The importance heuristic returns non-negative values (spec 4.2). *)
Hypothesis importance_nonneg : forall offset, 0 <= calc_node_importance kg P N offset.

(** One unfolding of [descend] in exact arithmetic. *)
Lemma descend_step (fuel : nat) (u : R) (offset : int) (pf : R) :
  descend (A := Exact) (S fuel) kg P N u offset pf
  = let '(second, _, _) := update_parent_node kg offset in
    if (second =? -1)%Z then Some (Arrived (A := Exact) [] offset u pf)
    else
      let I_L := calc_node_importance kg P N (child_offset kg offset true) in
      let I_R := calc_node_importance kg P N (child_offset kg offset false) in
      if Reqb I_L 0 && Reqb I_R 0 then Some (Failed (A := Exact) [] offset)
      else if Rleb u (left_probability kg P N offset) then
        option_map (arrival_push true)
          (descend (A := Exact) fuel kg P N (u / left_probability kg P N offset)
             (child_offset kg offset true) (pf * left_probability kg P N offset))
      else
        option_map (arrival_push false)
          (descend (A := Exact) fuel kg P N ((u * (I_L + I_R) - I_L) / I_R)
             (child_offset kg offset false)
             (pf * (1 - left_probability kg P N offset))).
Proof.
  cbn [descend]. unfold left_probability, child_offset, choose_child.
  destruct (update_parent_node kg offset) as [[second did] ne].
  destruct (second =? -1)%Z; [ reflexivity | ].
  cbn [f_eqb f_zero f_leb f_div f_add f_mul f_sub f_one Exact].
  destruct (Reqb _ 0 && Reqb _ 0); [ reflexivity | ].
  now destruct (Rleb u _).
Qed.

Lemma not_both_zero (a b : R) :
  0 <= a -> 0 <= b -> Reqb a 0 && Reqb b 0 = false -> 0 < a + b.
Proof.
  intros Ha Hb H.
  apply andb_false_iff in H. unfold Reqb in H.
  destruct H as [H | H]; [ destruct (Req_dec_T a 0) | destruct (Req_dec_T b 0) ];
    try discriminate; lra.
Qed.

Lemma ratio_bounds (a b : R) : 0 <= a -> 0 <= b -> 0 < a + b -> 0 <= a / (a + b) <= 1.
Proof.
  intros Ha Hb Hs.
  assert (Hp : a / (a + b) * (a + b) = a) by (field; lra).
  split; nra.
Qed.

(** Rescaling on the left: [u <= p] is mapped to [u / p] in [0,1]. *)
Lemma rescale_left (u p : R) :
  0 <= u -> u <= p -> 0 <= u / p <= 1 /\ u = p * (u / p).
Proof.
  intros Hu Hup.
  destruct (Req_dec p 0) as [Hp | Hp].
  - assert (u = 0) by lra. subst u. unfold Rdiv. rewrite Rmult_0_l. lra.
  - assert (Hq : u / p * p = u) by (field; lra).
    split; [ split; nra | lra ].
Qed.

(** Rescaling on the right: [p < u <= 1] is mapped into [0,1]. *)
Lemma rescale_right (u a b : R) :
  0 <= a -> 0 <= b -> 0 < a + b -> a / (a + b) < u -> u <= 1 ->
  let u1 := (u * (a + b) - a) / b in
  0 < b /\ 0 <= u1 <= 1 /\ u = a / (a + b) + (1 - a / (a + b)) * u1.
Proof.
  intros Ha Hb Hs Hlt Hu u1.
  assert (Hp : a / (a + b) * (a + b) = a) by (field; lra).
  assert (Hbpos : 0 < b) by nra.
  assert (Hu1 : u1 * b = u * (a + b) - a) by (unfold u1; field; lra).
  assert (Heq : u = a / (a + b) + (1 - a / (a + b)) * u1)
    by (unfold u1; field; lra).
  split; [ exact Hbpos | ]. split; [ | exact Heq ].
  split; nra.
Qed.

Lemma descend_interval (fuel : nat) :
  forall (offset : int) (u pf0 : R) (path : list bool) (leaf : int) (u' pf : R),
  0 <= u <= 1 ->
  descend (A := Exact) fuel kg P N u offset pf0 = Some (Arrived (A := Exact) path leaf u' pf) ->
  pf = pf0 * branch_product kg P N offset path /\
  0 <= path_lo kg P N offset path /\
  0 <= branch_product kg P N offset path /\
  path_lo kg P N offset path + branch_product kg P N offset path <= 1 /\
  0 <= u' <= 1 /\
  u = path_lo kg P N offset path + u' * branch_product kg P N offset path.
Proof.
  induction fuel as [ | fuel IH]; intros offset u pf0 path leaf u' pf Hu Hd;
    [ discriminate | ].
  rewrite descend_step in Hd.
  destruct (update_parent_node kg offset) as [[second did] ne].
  destruct (second =? -1)%Z.
  - injection Hd as <- <- <- <-. cbn [path_lo branch_product]. lra.
  - cbv zeta in Hd.
    destruct (Reqb _ 0 && Reqb _ 0) eqn:Hzero; [ discriminate | ].
    apply not_both_zero in Hzero; try apply importance_nonneg.
    pose proof (ratio_bounds _ _ (importance_nonneg (child_offset kg offset true))
                  (importance_nonneg (child_offset kg offset false)) Hzero) as Hp.
    fold (left_probability kg P N offset) in Hp.
    destruct (Rleb u (left_probability kg P N offset)) eqn:Hside.
    + apply Rleb_true in Hside.
      destruct (rescale_left u (left_probability kg P N offset)) as [Hu1 Heq];
        [ lra | lra | ].
      destruct (descend fuel kg P N _ _ _) as [[path' leaf' v pf' | ] | ] eqn:Hrec;
        try discriminate.
      injection Hd as <- <- <- <-.
      destruct (IH _ _ _ _ _ _ _ Hu1 Hrec) as (Hpf & Hlo & Hbp & Hsum & Hv & Hdraw).
      cbn [path_lo branch_product branch_probability].
      rewrite Hdraw in Heq.
      repeat split; first [ nra | rewrite Hpf; ring ].
    + apply Rleb_false in Hside.
      destruct (rescale_right u _ _ (importance_nonneg (child_offset kg offset true))
                  (importance_nonneg (child_offset kg offset false)) Hzero)
        as (Hb & Hu1 & Heq); [ exact Hside | lra | ].
      fold (left_probability kg P N offset) in Heq.
      destruct (descend fuel kg P N _ _ _) as [[path' leaf' v pf' | ] | ] eqn:Hrec;
        try discriminate.
      injection Hd as <- <- <- <-.
      destruct (IH _ _ _ _ _ _ _ Hu1 Hrec) as (Hpf & Hlo & Hbp & Hsum & Hv & Hdraw).
      cbn [path_lo branch_product branch_probability].
      rewrite Hdraw in Heq.
      repeat split; first [ nra | rewrite Hpf; ring ].
Qed.

Lemma descend_inside (fuel : nat) :
  forall (offset : int) (u0 pf0 : R) (path : list bool) (leaf : int) (u0' pf : R),
  0 <= u0 <= 1 ->
  descend (A := Exact) fuel kg P N u0 offset pf0
    = Some (Arrived (A := Exact) path leaf u0' pf) ->
  forall w pf1 : R,
  path_lo kg P N offset path < w
    < path_lo kg P N offset path + branch_product kg P N offset path ->
  descend (A := Exact) fuel kg P N w offset pf1
  = Some (Arrived (A := Exact) path leaf
            ((w - path_lo kg P N offset path) / branch_product kg P N offset path)
            (pf1 * branch_product kg P N offset path)).
Proof.
  induction fuel as [ | fuel IH]; intros offset u0 pf0 path leaf u0' pf Hu Hd w pf1;
    [ discriminate | ].
  rewrite descend_step in Hd. rewrite descend_step.
  destruct (update_parent_node kg offset) as [[second did] ne].
  destruct (second =? -1)%Z.
  - injection Hd as <- <- <- <-. cbn [path_lo branch_product]. intros Hw.
    do 2 f_equal; field.
  - cbv zeta in Hd |- *. revert Hd.
    destruct (Reqb _ 0 && Reqb _ 0) eqn:Hzero; [ discriminate | ].
    apply not_both_zero in Hzero; try apply importance_nonneg.
    pose proof (ratio_bounds _ _ (importance_nonneg (child_offset kg offset true))
                  (importance_nonneg (child_offset kg offset false)) Hzero) as Hp.
    fold (left_probability kg P N offset) in Hp.
    destruct (Rleb u0 (left_probability kg P N offset)) eqn:Hside; intros Hd.
    + apply Rleb_true in Hside.
      destruct (rescale_left u0 (left_probability kg P N offset)) as [Hu1 _];
        [ lra | lra | ].
      destruct (descend fuel kg P N (u0 / _) _ _) as [[path' leaf' v pf' | ] | ] eqn:Hrec;
        try discriminate.
      injection Hd as <- <- <- <-.
      destruct (descend_interval _ _ _ _ _ _ _ _ Hu1 Hrec) as (_ & Hlo & Hbp & Hsum & _).
      cbn [path_lo branch_product branch_probability]. intros Hw.
      set (p := left_probability kg P N offset) in *.
      set (lo := path_lo kg P N (child_offset kg offset true) path') in *.
      set (bp := branch_product kg P N (child_offset kg offset true) path') in *.
      assert (Hppos : 0 < p) by nra.
      assert (Hbpos : 0 < bp) by nra.
      assert (Hq : w / p * p = w) by (field; lra).
      rewrite Rleb_le by nra.
      rewrite (IH _ _ _ _ _ _ _ Hu1 Hrec (w / p) (pf1 * p)) by (fold lo bp; split; nra).
      fold lo bp. cbn [option_map arrival_push].
      do 2 f_equal; field; lra.
    + apply Rleb_false in Hside.
      destruct (rescale_right u0 _ _ (importance_nonneg (child_offset kg offset true))
                  (importance_nonneg (child_offset kg offset false)) Hzero)
        as (Hb & Hu1 & _); [ exact Hside | lra | ].
      destruct (descend fuel kg P N (_ / _) _ _) as [[path' leaf' v pf' | ] | ] eqn:Hrec;
        try discriminate.
      injection Hd as <- <- <- <-.
      destruct (descend_interval _ _ _ _ _ _ _ _ Hu1 Hrec) as (_ & Hlo & Hbp & Hsum & _).
      cbn [path_lo branch_product branch_probability]. intros Hw.
      set (p := left_probability kg P N offset) in *.
      set (lo := path_lo kg P N (child_offset kg offset false) path') in *.
      set (bp := branch_product kg P N (child_offset kg offset false) path') in *.
      assert (Hqpos : 0 < 1 - p) by nra.
      assert (Hbpos : 0 < bp) by nra.
      destruct (rescale_right w _ _ (importance_nonneg (child_offset kg offset true))
                  (importance_nonneg (child_offset kg offset false)) Hzero)
        as (_ & Hw1 & Heq); [ fold (left_probability kg P N offset); fold p; nra
                            | nra | ].
      fold (left_probability kg P N offset) in Heq. fold p in Heq.
      rewrite Rleb_gt by nra.
      set (w1 := (w * _ - _) / _) in *.
      rewrite (IH _ _ _ _ _ _ _ Hu1 Hrec w1 (pf1 * (1 - p))) by (fold lo bp; split; nra).
      fold lo bp. cbn [option_map arrival_push].
      assert (Hnum : w - (p + (1 - p) * lo) = (1 - p) * (w1 - lo)) by nra.
      rewrite Hnum.
      do 2 f_equal; field; lra.
Qed.

End Conservation.

(** ** What reaches a leaf *)

Section Arrival.
Context {A : Arith} {T : KernelTypes} {Rd : Radiance} {LT : LightTree} {Sh : Shading}.

(** A traversal that does not split and arrives at a leaf has walked the
    path it reports, and has multiplied the pdf factor by the branch
    probability of each step. *)
Lemma descend_arrival (fuel : nat) (kg : KernelGlobals) (P N : float3) :
  forall (randu : float) (offset : int) (pdf_factor : float)
         (path : list bool) (leaf : int) (randu' pdf_factor' : float),
  descend fuel kg P N randu offset pdf_factor
    = Some (Arrived path leaf randu' pdf_factor') ->
  leaf = path_end kg offset path /\
  fst (fst (update_parent_node kg leaf)) = -1 /\
  pdf_factor' = path_factor kg P N offset pdf_factor path.
Proof.
  induction fuel as [ | fuel IH];
    intros randu offset pdf_factor path leaf randu' pdf_factor' Hd; [ discriminate | ].
  cbn [descend] in Hd.
  destruct (update_parent_node kg offset) as [[second did] ne] eqn:Hnode.
  destruct (second =? -1) eqn:Hleaf.
  - injection Hd as <- <- <- <-. cbn [path_end path_factor].
    rewrite Hnode. cbn [fst]. apply Z.eqb_eq in Hleaf. now repeat split.
  - destruct (f_eqb (calc_node_importance kg P N (int_add offset 4)) f_zero
              && f_eqb (calc_node_importance kg P N (int_mul 4 second)) f_zero);
      [ discriminate | ].
    unfold choose_child in Hd.
    assert (HL : path_child kg offset true = int_add offset 4)
      by (unfold path_child; now rewrite Hnode).
    assert (HR : path_child kg offset false = int_mul 4 second)
      by (unfold path_child; now rewrite Hnode).
    assert (HP : path_P_L kg P N offset
                 = f_div (calc_node_importance kg P N (int_add offset 4))
                     (f_add (calc_node_importance kg P N (int_add offset 4))
                        (calc_node_importance kg P N (int_mul 4 second))))
      by (unfold path_P_L; now rewrite HL, HR).
    destruct (f_leb randu _) eqn:Hle;
      match type of Hd with
      | option_map _ ?d = _ => destruct d as [[path1 leaf1 u1 pf1 | path1 leaf1] | ] eqn:Hrec
      end; try discriminate;
      cbn [option_map arrival_push] in Hd; injection Hd as <- <- <- <-;
      destruct (IH _ _ _ _ _ _ _ Hrec) as (Hend & Hleaf1 & Hpf);
      cbn [path_end path_factor]; rewrite ?HL, ?HR, HP; now repeat split.
Qed.

(** What a leaf that holds one emitter does with the pdf factor. *)
Lemma leaf_contribution_single (kg : KernelGlobals) (randu randv : float)
    (distribution_id : int) (pdf_factor : float) (throughput : float3)
    (L : PathRadiance) (state : PathState) (sd emission_sd : ShaderData)
    (num_lights num_lights_fail : int) :
  let ls := light_point_sample kg randu randv (sd_time sd) (sd_P sd) (ps_bounce state)
              distribution_id in
  leaf_contribution kg randu randv distribution_id 1 pdf_factor throughput L state sd
    emission_sd num_lights num_lights_fail
  = if f_eqb (f_mul (ls_pdf ls) pdf_factor) f_zero then
      (L, int_incr num_lights, num_lights_fail)
    else
      (accum_light_contribution kg sd emission_sd
         (with_pdf ls (f_mul (ls_pdf ls) pdf_factor)) state indeterminate_ray L
         (path_state_rng_light_termination kg state) throughput f_one,
       int_incr num_lights, num_lights_fail).
Proof.
  reflexivity.
Qed.

End Arrival.

(** C1, as stated, fails in binary32.  Take two leaves of importance 1 and 2
    under the root.  [P_L] is the float nearest to 1/3, and a draw reaches
    the left leaf when it is at most [P_L] and the right leaf otherwise, so
    the draws of [0,1) that reach the right leaf have measure [1 - P_L].  The
    pdf factor handed to the right leaf is [1 - P_L] rounded to 24 bits,
    which is smaller: the factors of the two leaves sum to [1 - 2^-25]. *)
Lemma traversal_pdf_conservation_counterexample :
  let tree := Scene.two_leaves (A := IEEE) (Sample.flt 1 1) (Sample.flt 2 1) in
  let kg := Sample.globals Sample.zero [] in
  let P_L := Sample.flt 1 3 in
  let pdf_R := S754_finite false 11184810 (-24) in
  (forall u : @float IEEE,
     descend (LT := tree) 2 kg Scene.origin Scene.origin u 0 f_one
     = Some (if f_leb u P_L then Arrived [true] 4 (f_div u P_L) P_L
             else Arrived [false] 8
                    (f_div (f_sub (f_mul u (Sample.flt 3 1)) (Sample.flt 1 1))
                       (Sample.flt 2 1)) pdf_R)) /\
  (SF2Q pdf_R < 1 - SF2Q P_L)%Q /\
  (SF2Q P_L + SF2Q pdf_R == 1 - (1 # 33554432))%Q.
Proof.
  intros tree kg P_L pdf_R. split; [ | split; vm_compute; reflexivity ].
  intros u. cbn [descend].
  change (update_parent_node (LightTree := tree) kg 0) with (2, 0, 2).
  change (2 =? -1) with false. cbv beta iota.
  change (calc_node_importance (LightTree := tree) kg Scene.origin Scene.origin
            (int_add 0 4)) with (Sample.flt 1 1).
  change (calc_node_importance (LightTree := tree) kg Scene.origin Scene.origin
            (int_mul 4 2)) with (Sample.flt 2 1).
  change (f_eqb (Sample.flt 1 1) f_zero && f_eqb (Sample.flt 2 1) f_zero) with false.
  cbv beta iota. unfold choose_child.
  change (f_add (Sample.flt 1 1) (Sample.flt 2 1)) with (Sample.flt 3 1).
  change (f_div (Sample.flt 1 1) (Sample.flt 3 1)) with P_L.
  change (f_mul f_one P_L) with P_L.
  change (f_mul f_one (f_sub f_one P_L)) with pdf_R.
  change (int_add 0 4) with 4. change (int_mul 4 2) with 8.
  destruct (f_leb u P_L); cbn [descend];
    [ change (update_parent_node (LightTree := tree) kg 4) with (-1, 1, 1)
    | change (update_parent_node (LightTree := tree) kg 8) with (-1, 2, 1) ];
    reflexivity.
Qed.

(** C1, amended.  Take a traversal that does not split and reaches a leaf
    along a path.  In every arithmetic, binary32 included, the leaf is the
    end of that path, the pdf factor handed to it is the starting factor
    multiplied in turn by the branch probability ([P_L] or [1 - P_L], as the
    kernel computes them) of each step, and a leaf that holds one emitter
    multiplies the density of its light sample by that factor before the
    connection is made.  In exact arithmetic, with non-negative importances
    and a starting factor 1, this product [p] is the measure of the draws
    that reach the leaf: with [lo] for [path_lo], every draw of [0,1) that
    follows the path lies in [[lo, lo + p]], inside [[0,1]], and every draw
    strictly between [lo] and [lo + p] follows the path, arrives with pdf
    factor [p] and is rescaled affinely to [(w - lo) / p]. *)
Theorem traversal_pdf_conservation :
  (forall (A : Arith) (T : KernelTypes) (Rd : Radiance) (LT : LightTree) (Sh : Shading)
          (fuel : nat) (kg : KernelGlobals) (randu randv : float) (root : int)
          (pdf_factor : float) (throughput : float3) (L : PathRadiance)
          (state : PathState) (sd emission_sd : ShaderData)
          (num_lights num_lights_fail : int)
          (path : list bool) (leaf : int) (randu' pdf_factor' : float),
     descend fuel kg (sd_P sd) (sd_N sd) randu root pdf_factor
       = Some (Arrived path leaf randu' pdf_factor') ->
     leaf = path_end kg root path /\
     pdf_factor' = path_factor kg (sd_P sd) (sd_N sd) root pdf_factor path /\
     fst (fst (update_parent_node kg leaf)) = -1 /\
     forall distribution_id : int,
       update_parent_node kg leaf = (-1, distribution_id, 1) ->
       let ls := light_point_sample kg randu' randv (sd_time sd) (sd_P sd)
                   (ps_bounce state) distribution_id in
       accum_light_tree_contribution fuel kg randu randv root pdf_factor false
         throughput L state sd emission_sd num_lights num_lights_fail
       = Some (if f_eqb (f_mul (ls_pdf ls) pdf_factor') f_zero then
                 (L, int_incr num_lights, num_lights_fail)
               else
                 (accum_light_contribution kg sd emission_sd
                    (with_pdf ls (f_mul (ls_pdf ls) pdf_factor')) state
                    indeterminate_ray L (path_state_rng_light_termination kg state)
                    throughput f_one,
                  int_incr num_lights, num_lights_fail))) /\
  (forall (LT : @LightTree Exact) (kg : @KernelGlobals Exact) (P N : @float3 Exact)
          (fuel : nat) (root : int) (path : list bool) (leaf : int) (u u' pf : R),
     (forall offset, 0 <= calc_node_importance kg P N offset)%R ->
     (0 <= u < 1)%R ->
     descend (A := Exact) fuel kg P N u root 1%R
       = Some (Arrived (A := Exact) path leaf u' pf) ->
     let lo := path_lo kg P N root path in
     let p := branch_product kg P N root path in
     (0 <= lo /\ 0 <= p /\ lo + p <= 1)%R /\
     pf = p /\
     (forall w w' pf' : R,
        (0 <= w < 1)%R ->
        descend (A := Exact) fuel kg P N w root 1%R
          = Some (Arrived (A := Exact) path leaf w' pf') ->
        (lo <= w <= lo + p)%R /\ pf' = p /\ w = (lo + w' * p)%R) /\
     (forall w : R,
        (lo < w < lo + p)%R ->
        descend (A := Exact) fuel kg P N w root 1%R
          = Some (Arrived (A := Exact) path leaf ((w - lo) / p)%R p))).
Proof.
  split.
  - intros A T Rd LT Sh fuel kg randu randv root pdf_factor throughput L state sd
      emission_sd num_lights num_lights_fail path leaf randu' pdf_factor' Hd.
    destruct (descend_arrival fuel kg (sd_P sd) (sd_N sd) _ _ _ _ _ _ _ Hd)
      as (Hend & Hleaf & Hpf).
    repeat (split; [ assumption | ]).
    intros distribution_id Hnode ls.
    rewrite accum_no_split_descend, Hd.
    cbn [option_map contribution_at]. rewrite Hnode.
    now rewrite leaf_contribution_single.
  - intros LT kg P N fuel root path leaf u u' pf Himp Hu Hd lo p.
    assert (Hu01 : (0 <= u <= 1)%R) by lra.
    destruct (descend_interval kg P N Himp fuel _ _ _ _ _ _ _ Hu01 Hd)
      as (Hpf & Hlo & Hp & Hsum & Hu' & Hdraw).
    fold lo p in Hpf, Hlo, Hp, Hsum, Hdraw.
    assert (Hpf1 : pf = p) by lra.
    split; [ lra | ]. split; [ exact Hpf1 | ]. split.
    + intros w w' pf' Hw Hdw.
      assert (Hw01 : (0 <= w <= 1)%R) by lra.
      destruct (descend_interval kg P N Himp fuel _ _ _ _ _ _ _ Hw01 Hdw)
        as (Hpf' & _ & _ & _ & Hw' & Hdraw').
      fold lo p in Hpf', Hdraw'.
      split; [ nra | ]. split; [ lra | exact Hdraw' ].
    + intros w Hw.
      rewrite (descend_inside kg P N Himp fuel _ _ _ _ _ _ _ Hu01 Hd w 1%R Hw).
      fold lo p. do 2 f_equal. lra.
Qed.

Lemma sample_nonneg (offset : int) :
  (0 <= calc_node_importance (LightTree := ExactSample.tree) ExactSample.globals
          ExactSample.origin ExactSample.origin offset)%R.
Proof.
  change (0 <= ExactSample.importance offset)%R. unfold ExactSample.importance.
  destruct (offset =? 4); lra.
Qed.

Lemma sample_descend :
  descend (A := Exact) (LT := ExactSample.tree) 3 ExactSample.globals ExactSample.origin
    ExactSample.origin (1 / 2)%R 0 1%R
  = Some (Arrived (A := Exact) [true; false] 12 (1 / 3)%R (3 / 8)%R).
Proof.
  rewrite descend_step.
  change (update_parent_node (LightTree := ExactSample.tree) ExactSample.globals 0)
    with (4, 0, 3).
  change (left_probability ExactSample.globals ExactSample.origin ExactSample.origin 0)
    with (3 / (3 + 1))%R.
  change (child_offset (LT := ExactSample.tree) ExactSample.globals 0 true) with 4.
  change (calc_node_importance (LightTree := ExactSample.tree) ExactSample.globals
            ExactSample.origin ExactSample.origin 4) with 3%R.
  cbv beta iota zeta.
  rewrite (Reqb_neq 3 0) by lra.
  rewrite (Rleb_le (1 / 2) (3 / (3 + 1))) by lra.
  change (4 =? -1) with false. cbv beta iota delta [andb].
  rewrite descend_step.
  change (update_parent_node (LightTree := ExactSample.tree) ExactSample.globals 4)
    with (3, 0, 2).
  change (left_probability ExactSample.globals ExactSample.origin ExactSample.origin 4)
    with (1 / (1 + 1))%R.
  change (child_offset (LT := ExactSample.tree) ExactSample.globals 4 true) with 8.
  change (child_offset (LT := ExactSample.tree) ExactSample.globals 4 false) with 12.
  change (calc_node_importance (LightTree := ExactSample.tree) ExactSample.globals
            ExactSample.origin ExactSample.origin 8) with 1%R.
  change (calc_node_importance (LightTree := ExactSample.tree) ExactSample.globals
            ExactSample.origin ExactSample.origin 12) with 1%R.
  cbv beta iota zeta.
  rewrite (Reqb_neq 1 0) by lra.
  rewrite (Rleb_gt (1 / 2 / (3 / (3 + 1))) (1 / (1 + 1))) by lra.
  change (3 =? -1) with false. cbv beta iota delta [andb].
  rewrite descend_step.
  change (update_parent_node (LightTree := ExactSample.tree) ExactSample.globals 12)
    with (-1, 3, 1).
  cbv beta iota zeta. change (-1 =? -1) with true. cbv beta iota.
  cbv beta iota delta [option_map arrival_push].
  do 2 f_equal; lra.
Qed.

Lemma traversal_pdf_conservation_witness :
  (let tree := Scene.two_leaves (A := IEEE) (Sample.flt 1 1) (Sample.flt 2 1) in
   let Sh := Scene.shading (A := IEEE) (Sample.flt 1 2) false Scene.ones 0 Scene.ones
               (Sample.flt 1 2) in
   let kg := Sample.globals Sample.zero [] in
   path_factor (LT := tree) kg Scene.origin Scene.ones 0 f_one [false]
   = S754_finite false 11184810 (-24) /\
   accum_light_tree_contribution (LT := tree) (Sh := Sh) 2 kg (Sample.flt 3 4)
     (Sample.flt 1 4) 0 f_one false Scene.ones Scene.dark (Scene.state0 (Sample.flt 1 4))
     Scene.sd0 Scene.sd0 0 0
   = Some (accum_light_contribution (Sh := Sh) kg Scene.sd0 Scene.sd0
             (Build_LightSample (T := Scene.types)
                (f_mul (Sample.flt 1 2) (S754_finite false 11184810 (-24))) tt)
             (Scene.state0 (Sample.flt 1 4)) Scene.ray0 Scene.dark Sample.zero
             Scene.ones f_one, 1, 0)) /\
  (let lo := path_lo (LT := ExactSample.tree) ExactSample.globals ExactSample.origin
               ExactSample.origin 0 [true; false] in
   let p := branch_product (LT := ExactSample.tree) ExactSample.globals ExactSample.origin
              ExactSample.origin 0 [true; false] in
   p = (3 / 8)%R /\ (lo <= 1 / 2 <= lo + p)%R).
Proof.
  split.
  - intros tree Sh kg.
    assert (Hd : descend (LT := tree) 2 kg (sd_P Scene.sd0) (sd_N Scene.sd0)
                   (Sample.flt 3 4) 0 f_one
                 = Some (Arrived [false] 8
                           (f_div (f_sub (f_mul (Sample.flt 3 4) (Sample.flt 3 1))
                                     (Sample.flt 1 1)) (Sample.flt 2 1))
                           (S754_finite false 11184810 (-24))))
      by reflexivity.
    destruct (proj1 traversal_pdf_conservation IEEE Scene.types SpecRadiance tree Sh 2%nat kg
                (Sample.flt 3 4) (Sample.flt 1 4) 0 f_one Scene.ones Scene.dark
                (Scene.state0 (Sample.flt 1 4)) Scene.sd0 Scene.sd0 0 0 [false] 8 _ _ Hd)
      as (_ & Hpf & _ & Hleaf).
    split; [ symmetry; exact Hpf | ].
    rewrite (Hleaf 2 eq_refl). reflexivity.
  - intros lo p.
    assert (Hhalf : (0 <= 1 / 2 < 1)%R) by lra.
    destruct (proj2 traversal_pdf_conservation ExactSample.tree ExactSample.globals
                ExactSample.origin ExactSample.origin 3%nat 0 [true; false] 12
                (1 / 2)%R (1 / 3)%R (3 / 8)%R sample_nonneg Hhalf sample_descend)
      as (_ & Hpf & Hin & _).
    split.
    + symmetry. exact Hpf.
    + exact (proj1 (Hin (1 / 2)%R (1 / 3)%R (3 / 8)%R Hhalf sample_descend)).
Defined.

(** ** Surface bounce *)

Section Bounce.
Context {A : Arith} {T : KernelTypes} {Rd : Radiance} {Sh : Shading}.

Lemma set_mis_pdfs (state : PathState) (min_ray_pdf ray_pdf ray_t : float) :
  ps_ray_pdf (set_mis state min_ray_pdf ray_pdf ray_t) = ray_pdf /\
  ps_min_ray_pdf (set_mis state min_ray_pdf ray_pdf ray_t) = min_ray_pdf.
Proof.
  now split.
Qed.

Lemma volume_enter_exit_pdfs (kg : KernelGlobals) (sd : ShaderData) (label : int)
    (state : PathState) :
  ps_ray_pdf (volume_enter_exit kg sd label state) = ps_ray_pdf state /\
  ps_min_ray_pdf (volume_enter_exit kg sd label state) = ps_min_ray_pdf state.
Proof.
  unfold volume_enter_exit.
  now destruct (feature_VOLUME && has_flag label LABEL_TRANSMIT).
Qed.

End Bounce.

(** C10. Bounce termination atomicity: when the sampled BSDF density is zero
    or the BSDF evaluation is identically zero, both bounce routines return
    false and leave the throughput, the path state, the radiance state and
    the ray as they were. *)
Theorem bounce_termination_atomic
    {A : Arith} {T : KernelTypes} {Rd : Radiance} {Sh : Shading}
    (kg : KernelGlobals) (sd : ShaderData) (throughput : float3) (state : PathState)
    (L_state : PathRadianceState) (ray : Ray) :
  (forall bsdf_u bsdf_v label bsdf_eval omega_in domega_in bsdf_pdf,
     has_flag (sd_flag sd) SD_BSDF = true ->
     path_state_rng_2D kg state PRNG_BSDF_U = (bsdf_u, bsdf_v) ->
     shader_bsdf_sample kg sd bsdf_u bsdf_v
       = (label, bsdf_eval, omega_in, domega_in, bsdf_pdf) ->
     f_eqb bsdf_pdf f_zero = true \/ bsdf_eval_is_zero bsdf_eval = true ->
     kernel_path_surface_bounce kg sd throughput state L_state ray
       = untouched throughput state L_state ray) /\
  (forall sc sample num_samples sum_sample_weight
          bsdf_u bsdf_v label bsdf_eval omega_in domega_in bsdf_pdf,
     path_branched_rng_2D kg (ps_rng_hash state) state sample num_samples PRNG_BSDF_U
       = (bsdf_u, bsdf_v) ->
     shader_bsdf_sample_closure kg sd sc bsdf_u bsdf_v
       = (label, bsdf_eval, omega_in, domega_in, bsdf_pdf) ->
     f_eqb bsdf_pdf f_zero = true \/ bsdf_eval_is_zero bsdf_eval = true ->
     kernel_branched_path_surface_bounce kg sd sc sample num_samples throughput state
       L_state ray sum_sample_weight
       = untouched throughput state L_state ray).
Proof.
  split.
  - intros bsdf_u bsdf_v label bsdf_eval omega_in domega_in bsdf_pdf Hflag Hrng Hsample Hzero.
    unfold kernel_path_surface_bounce.
    rewrite Hflag, Hrng, Hsample.
    assert (Hz : f_eqb bsdf_pdf f_zero || bsdf_eval_is_zero bsdf_eval = true)
      by (apply orb_true_iff; exact Hzero).
    now rewrite Hz.
  - intros sc sample num_samples sum_sample_weight
      bsdf_u bsdf_v label bsdf_eval omega_in domega_in bsdf_pdf Hrng Hsample Hzero.
    unfold kernel_branched_path_surface_bounce.
    rewrite Hrng, Hsample.
    assert (Hz : f_eqb bsdf_pdf f_zero || bsdf_eval_is_zero bsdf_eval = true)
      by (apply orb_true_iff; exact Hzero).
    now rewrite Hz.
Qed.

Lemma bounce_termination_atomic_witness :
  let Sh := Scene.shading (A := IEEE) (Sample.flt 1 2) false Scene.ones 0 Scene.ones
              Sample.zero in
  let kg := Sample.globals (Sample.flt 1 2) Sample.unit_box in
  let state := Scene.state0 (Sample.flt 1 4) in
  kernel_path_surface_bounce (Sh := Sh) kg Scene.sd0 Scene.ones state Scene.L_state0
    Scene.ray0
    = untouched Scene.ones state Scene.L_state0 Scene.ray0 /\
  kernel_branched_path_surface_bounce (Sh := Sh) kg Scene.sd0 Scene.closure0 0 4
    Scene.ones state Scene.L_state0 Scene.ray0 (Sample.flt 1 1)
    = untouched Scene.ones state Scene.L_state0 Scene.ray0.
Proof.
  intros Sh kg state.
  pose proof (bounce_termination_atomic (Sh := Sh) kg Scene.sd0 Scene.ones state
                Scene.L_state0 Scene.ray0) as [Hpath Hbranched].
  split.
  - apply (Hpath (Sample.flt 1 2) (Sample.flt 1 2) 0 Scene.ones Scene.ones Scene.diff0
             Sample.zero);
      try reflexivity.
    left. reflexivity.
  - apply (Hbranched Scene.closure0 0 4 (Sample.flt 1 1)
             (Sample.flt 1 2) (Sample.flt 1 2) 0 Scene.ones Scene.ones Scene.diff0
             Sample.zero);
      try reflexivity.
    left. reflexivity.
Defined.

(** C9, as stated, fails on both routines.  In the branched routine a bounce
    with density 1/2 on a path whose running minimum was 1/4 leaves the
    minimum at 1/2; in the unbranched routine a transparent bounce with
    density 1/2 leaves the last-bounce density at its old value 1. *)
Lemma mis_pdf_bookkeeping_counterexample :
  let kg := Sample.globals (Sample.flt 1 2) Sample.unit_box in
  let state := Scene.state0 (A := IEEE) (Sample.flt 1 4) in
  let branched :=
    kernel_branched_path_surface_bounce
      (Sh := Scene.shading (A := IEEE) (Sample.flt 1 2) false Scene.ones 0 Scene.ones
               (Sample.flt 1 2))
      kg Scene.sd0 Scene.closure0 0 4 Scene.ones state Scene.L_state0 Scene.ray0
      (Sample.flt 1 1) in
  let transparent :=
    kernel_path_surface_bounce
      (Sh := Scene.shading (A := IEEE) (Sample.flt 1 2) false Scene.ones 64 Scene.ones
               (Sample.flt 1 2))
      kg Scene.sd0 Scene.ones state Scene.L_state0 Scene.ray0 in
  (br_ok branched = true /\
   ps_min_ray_pdf (br_state branched)
     <> fminf (Arith := IEEE) (Sample.flt 1 2) (ps_min_ray_pdf state)) /\
  (br_ok transparent = true /\
   ps_ray_pdf (br_state transparent) <> Sample.flt 1 2).
Proof.
  vm_compute. repeat split; discriminate.
Qed.

(** C9, amended.  After a successful bounce that sampled the BSDF with
    density [bsdf_pdf]: in [kernel_path_surface_bounce], when the sampled
    label is not transparent the last-bounce density is [bsdf_pdf] and the
    running minimum is [fminf(bsdf_pdf, previous minimum)], and when it is
    transparent both are left as they were; in
    [kernel_branched_path_surface_bounce] the last-bounce density is
    [bsdf_pdf] and the minimum is restarted at [fminf(bsdf_pdf, FLT_MAX)],
    whatever it was before.  [path_state_next] is taken not to write the two
    fields. *)
Theorem mis_pdf_bookkeeping
    {A : Arith} {T : KernelTypes} {Rd : Radiance} {Sh : Shading}
    (kg : KernelGlobals) (sd : ShaderData) (throughput : float3) (state : PathState)
    (L_state : PathRadianceState) (ray : Ray) :
  (forall st label,
     ps_ray_pdf (path_state_next kg st label) = ps_ray_pdf st /\
     ps_min_ray_pdf (path_state_next kg st label) = ps_min_ray_pdf st) ->
  (forall bsdf_u bsdf_v label bsdf_eval omega_in domega_in bsdf_pdf,
     has_flag (sd_flag sd) SD_BSDF = true ->
     path_state_rng_2D kg state PRNG_BSDF_U = (bsdf_u, bsdf_v) ->
     shader_bsdf_sample kg sd bsdf_u bsdf_v
       = (label, bsdf_eval, omega_in, domega_in, bsdf_pdf) ->
     let result := kernel_path_surface_bounce kg sd throughput state L_state ray in
     br_ok result = true ->
     if has_flag label LABEL_TRANSPARENT then
       ps_ray_pdf (br_state result) = ps_ray_pdf state /\
       ps_min_ray_pdf (br_state result) = ps_min_ray_pdf state
     else
       ps_ray_pdf (br_state result) = bsdf_pdf /\
       ps_min_ray_pdf (br_state result) = fminf bsdf_pdf (ps_min_ray_pdf state)) /\
  (forall sc sample num_samples sum_sample_weight
          bsdf_u bsdf_v label bsdf_eval omega_in domega_in bsdf_pdf,
     path_branched_rng_2D kg (ps_rng_hash state) state sample num_samples PRNG_BSDF_U
       = (bsdf_u, bsdf_v) ->
     shader_bsdf_sample_closure kg sd sc bsdf_u bsdf_v
       = (label, bsdf_eval, omega_in, domega_in, bsdf_pdf) ->
     let result := kernel_branched_path_surface_bounce kg sd sc sample num_samples
                     throughput state L_state ray sum_sample_weight in
     br_ok result = true ->
     ps_ray_pdf (br_state result) = bsdf_pdf /\
     ps_min_ray_pdf (br_state result) = fminf bsdf_pdf FLT_MAX).
Proof.
  intros Hnext. split.
  - intros bsdf_u bsdf_v label bsdf_eval omega_in domega_in bsdf_pdf Hflag Hrng Hsample.
    unfold kernel_path_surface_bounce.
    rewrite Hflag, Hrng, Hsample.
    destruct (f_eqb bsdf_pdf f_zero || bsdf_eval_is_zero bsdf_eval);
      [ cbn; discriminate | ].
    destruct (path_radiance_bsdf_bounce kg L_state throughput bsdf_eval bsdf_pdf
                (ps_bounce state) label) as [L_state' throughput'].
    cbn [br_ok br_state]. intros _.
    destruct (volume_enter_exit_pdfs kg sd label
                (path_state_next kg
                   (if negb (has_flag label LABEL_TRANSPARENT)
                    then set_mis state (fminf bsdf_pdf (ps_min_ray_pdf state)) bsdf_pdf
                           (if feature_LAMP_MIS then f_zero else ps_ray_t state)
                    else state) label)) as [Hr Hm].
    rewrite Hr, Hm.
    destruct (Hnext (if negb (has_flag label LABEL_TRANSPARENT)
                     then set_mis state (fminf bsdf_pdf (ps_min_ray_pdf state)) bsdf_pdf
                            (if feature_LAMP_MIS then f_zero else ps_ray_t state)
                     else state) label) as [Hr' Hm'].
    rewrite Hr', Hm'.
    now destruct (has_flag label LABEL_TRANSPARENT).
  - intros sc sample num_samples sum_sample_weight
      bsdf_u bsdf_v label bsdf_eval omega_in domega_in bsdf_pdf Hrng Hsample.
    unfold kernel_branched_path_surface_bounce.
    rewrite Hrng, Hsample.
    destruct (f_eqb bsdf_pdf f_zero || bsdf_eval_is_zero bsdf_eval);
      [ cbn; discriminate | ].
    destruct (path_radiance_bsdf_bounce kg L_state throughput bsdf_eval bsdf_pdf
                (ps_bounce state) label) as [L_state' throughput'].
    cbn [br_ok br_state]. intros _. now split.
Qed.

Lemma mis_pdf_bookkeeping_witness :
  let Sh := Scene.shading (A := IEEE) (Sample.flt 1 2) false Scene.ones 0 Scene.ones
              (Sample.flt 1 2) in
  let kg := Sample.globals (Sample.flt 1 2) Sample.unit_box in
  let state := Scene.state0 (Sample.flt 1 4) in
  let unbranched :=
    kernel_path_surface_bounce (Sh := Sh) kg Scene.sd0 Scene.ones state Scene.L_state0
      Scene.ray0 in
  let branched :=
    kernel_branched_path_surface_bounce (Sh := Sh) kg Scene.sd0 Scene.closure0 0 4
      Scene.ones state Scene.L_state0 Scene.ray0 (Sample.flt 1 1) in
  (ps_ray_pdf (br_state unbranched) = Sample.flt 1 2 /\
   ps_min_ray_pdf (br_state unbranched) = Sample.flt 1 4) /\
  (ps_ray_pdf (br_state branched) = Sample.flt 1 2 /\
   ps_min_ray_pdf (br_state branched) = Sample.flt 1 2).
Proof.
  intros Sh kg state unbranched branched.
  assert (Hnext : forall st label,
            ps_ray_pdf (path_state_next (Shading := Sh) kg st label) = ps_ray_pdf st /\
            ps_min_ray_pdf (path_state_next (Shading := Sh) kg st label) = ps_min_ray_pdf st)
    by (intros st label; split; reflexivity).
  pose proof (mis_pdf_bookkeeping (Sh := Sh) kg Scene.sd0 Scene.ones state
                Scene.L_state0 Scene.ray0 Hnext) as [Hpath Hbranched].
  split.
  - exact (Hpath (Sample.flt 1 2) (Sample.flt 1 2) 0 Scene.ones Scene.ones Scene.diff0
             (Sample.flt 1 2) eq_refl eq_refl eq_refl eq_refl).
  - exact (Hbranched Scene.closure0 0 4 (Sample.flt 1 1)
             (Sample.flt 1 2) (Sample.flt 1 2) 0 Scene.ones Scene.ones Scene.diff0
             (Sample.flt 1 2) eq_refl eq_refl eq_refl).
Defined.
(** * Further properties *)

(** ** Traversal: fuel, splitting everywhere, splitting nowhere *)

Section TraversalShape.
Context {A : Arith} {T : KernelTypes} {Rd : Radiance} {LT : LightTree} {Sh : Shading}.

(** One unfolding of the traversal. *)
Lemma accum_unfold (fuel : nat) (kg : KernelGlobals) (randu randv : float)
    (offset : int) (pdf_factor : float) (can_split : bool) (throughput : float3)
    (L : PathRadiance) (state : PathState) (sd emission_sd : ShaderData)
    (num_lights num_lights_fail : int) :
  accum_light_tree_contribution (S fuel) kg randu randv offset pdf_factor can_split
    throughput L state sd emission_sd num_lights num_lights_fail
  = let '(secondChildOffset, distribution_id, num_emitters) :=
      update_parent_node kg offset in
    if secondChildOffset =? -1 then
      Some (leaf_contribution kg randu randv distribution_id num_emitters pdf_factor
              throughput L state sd emission_sd num_lights num_lights_fail)
    else
      if can_split && split kg (sd_P sd) offset then
        match accum_light_tree_contribution fuel kg randu randv (int_add offset 4)
                pdf_factor true throughput L state sd emission_sd
                num_lights num_lights_fail with
        | Some (L1, nl1, nf1) =>
            accum_light_tree_contribution fuel kg randu randv
              (int_mul 4 secondChildOffset) pdf_factor true throughput L1 state sd
              emission_sd nl1 nf1
        | None => None
        end
      else
        let I_L := calc_node_importance kg (sd_P sd) (sd_N sd) (int_add offset 4) in
        let I_R := calc_node_importance kg (sd_P sd) (sd_N sd)
                     (int_mul 4 secondChildOffset) in
        if f_eqb I_L f_zero && f_eqb I_R f_zero then
          Some (L, num_lights, int_incr num_lights_fail)
        else
          let '(randu', offset', pdf_factor') :=
            choose_child I_L I_R randu pdf_factor (int_add offset 4)
              (int_mul 4 secondChildOffset) in
          accum_light_tree_contribution fuel kg randu' randv offset' pdf_factor' false
            throughput L state sd emission_sd num_lights num_lights_fail.
Proof.
  reflexivity.
Qed.

(** More fuel does not change a result. *)
Lemma accum_fuel_step (fuel : nat) (kg : KernelGlobals) (randv : float)
    (throughput : float3) (state : PathState) (sd emission_sd : ShaderData) :
  forall (randu : float) (offset : int) (pdf_factor : float) (can_split : bool)
         (L : PathRadiance) (num_lights num_lights_fail : int)
         (result : PathRadiance * int * int),
  accum_light_tree_contribution fuel kg randu randv offset pdf_factor can_split
    throughput L state sd emission_sd num_lights num_lights_fail = Some result ->
  accum_light_tree_contribution (S fuel) kg randu randv offset pdf_factor can_split
    throughput L state sd emission_sd num_lights num_lights_fail = Some result.
Proof.
  induction fuel as [ | fuel IH];
    intros randu offset pdf_factor can_split L num_lights num_lights_fail result H;
    [ discriminate | ].
  rewrite accum_unfold in H. rewrite accum_unfold.
  destruct (update_parent_node kg offset) as [[second did] ne].
  destruct (second =? -1); [ exact H | ].
  destruct (can_split && split kg (sd_P sd) offset).
  - destruct (accum_light_tree_contribution fuel kg randu randv (int_add offset 4)
                pdf_factor true throughput L state sd emission_sd num_lights
                num_lights_fail) as [[[L1 nl1] nf1] | ] eqn:Hleft; [ | discriminate ].
    rewrite (IH _ _ _ _ _ _ _ _ Hleft). now apply IH.
  - cbv zeta in H |- *.
    destruct (f_eqb _ f_zero && f_eqb _ f_zero); [ exact H | ].
    destruct (choose_child _ _ randu pdf_factor _ _) as [[randu' offset'] pdf_factor'].
    now apply IH.
Qed.

Lemma accum_fuel_le (fuel fuel' : nat) (kg : KernelGlobals) (randu randv : float)
    (offset : int) (pdf_factor : float) (can_split : bool) (throughput : float3)
    (L : PathRadiance) (state : PathState) (sd emission_sd : ShaderData)
    (num_lights num_lights_fail : int) (result : PathRadiance * int * int) :
  (fuel <= fuel')%nat ->
  accum_light_tree_contribution fuel kg randu randv offset pdf_factor can_split
    throughput L state sd emission_sd num_lights num_lights_fail = Some result ->
  accum_light_tree_contribution fuel' kg randu randv offset pdf_factor can_split
    throughput L state sd emission_sd num_lights num_lights_fail = Some result.
Proof.
  induction 1 as [ | fuel' _ IH]; intros H; [ exact H | ].
  now apply accum_fuel_step, IH.
Qed.

(** Fuel that covers the subtree is enough, whatever is drawn or split. *)
Lemma accum_enough_fuel (fuel : nat) (kg : KernelGlobals) (randv : float)
    (throughput : float3) (state : PathState) (sd emission_sd : ShaderData) :
  forall (offset : int) (paths : list (list bool * int)),
  leaf_paths fuel kg offset = Some paths ->
  forall (randu pdf_factor : float) (can_split : bool)
         (L : PathRadiance) (num_lights num_lights_fail : int),
  exists result,
    accum_light_tree_contribution fuel kg randu randv offset pdf_factor can_split
      throughput L state sd emission_sd num_lights num_lights_fail = Some result.
Proof.
  induction fuel as [ | fuel IH]; intros offset paths Hpaths; [ discriminate | ].
  intros randu pdf_factor can_split L num_lights num_lights_fail.
  rewrite accum_unfold. cbn [leaf_paths] in Hpaths.
  destruct (update_parent_node kg offset) as [[second did] ne].
  destruct (second =? -1); [ eexists; reflexivity | ].
  destruct (leaf_paths fuel kg (int_add offset 4)) as [l | ] eqn:Hl; [ | discriminate ].
  destruct (leaf_paths fuel kg (int_mul 4 second)) as [r | ] eqn:Hr; [ | discriminate ].
  destruct (can_split && split kg (sd_P sd) offset).
  - destruct (IH _ _ Hl randu pdf_factor true L num_lights num_lights_fail)
      as [[[L1 nl1] nf1] H1].
    rewrite H1. apply (IH _ _ Hr).
  - cbv zeta.
    destruct (f_eqb _ f_zero && f_eqb _ f_zero); [ eexists; reflexivity | ].
    unfold choose_child.
    destruct (f_leb randu _); [ apply (IH _ _ Hl) | apply (IH _ _ Hr) ].
Qed.

(** With the threshold at 1 every interior node is split. *)
Lemma accum_split_everywhere (fuel : nat) (kg : KernelGlobals) (randu randv : float)
    (pdf_factor : float) (throughput : float3) (state : PathState)
    (sd emission_sd : ShaderData) :
  d_eqb (double_of_float (splitting_threshold kg)) d_zero = false ->
  d_eqb (double_of_float (splitting_threshold kg)) d_one = true ->
  forall (offset : int) (paths : list (list bool * int))
         (L : PathRadiance) (num_lights num_lights_fail : int),
  leaf_paths fuel kg offset = Some paths ->
  accum_light_tree_contribution fuel kg randu randv offset pdf_factor true throughput L
    state sd emission_sd num_lights num_lights_fail
  = Some (fold_left (visit_leaf kg randu randv pdf_factor throughput state sd emission_sd)
            (map snd paths) (L, num_lights, num_lights_fail)).
Proof.
  intros H0 H1.
  induction fuel as [ | fuel IH];
    intros offset paths L num_lights num_lights_fail Hpaths; [ discriminate | ].
  rewrite accum_unfold. cbn [leaf_paths] in Hpaths.
  destruct (update_parent_node kg offset) as [[second did] ne] eqn:Hnode.
  destruct (second =? -1).
  - injection Hpaths as <-. cbn [map snd fold_left visit_leaf]. now rewrite Hnode.
  - destruct (leaf_paths fuel kg (int_add offset 4)) as [l | ] eqn:Hl; [ | discriminate ].
    destruct (leaf_paths fuel kg (int_mul 4 second)) as [r | ] eqn:Hr; [ | discriminate ].
    injection Hpaths as <-.
    rewrite (split_threshold_one kg (sd_P sd) offset H0 H1). cbn [andb].
    rewrite (IH _ _ _ _ _ Hl).
    destruct (fold_left _ (map snd l) (L, num_lights, num_lights_fail))
      as [[L1 nl1] nf1] eqn:Hfold.
    rewrite (IH _ _ _ _ _ Hr).
    rewrite map_app, !map_map, fold_left_app.
    rewrite (map_ext (fun pl : list bool * int => snd (true :: fst pl, snd pl)) snd
               (fun _ => eq_refl) l),
            (map_ext (fun pl : list bool * int => snd (false :: fst pl, snd pl)) snd
               (fun _ => eq_refl) r).
    now rewrite Hfold.
Qed.

End TraversalShape.

Lemma IEEE_threshold_zero (t : @float IEEE) :
  f_eqb t f_zero = true -> d_eqb (double_of_float t) d_zero = true.
Proof.
  intros H. apply SFeqb_zero_inv in H. destruct H as [s ->]. now destruct s.
Qed.

Lemma IEEE_threshold_one (t : @float IEEE) :
  f_eqb t f_one = true ->
  d_eqb (double_of_float t) d_zero = false /\ d_eqb (double_of_float t) d_one = true.
Proof.
  intros H. apply (SFeqb_finite_inv t 8388608 (-23)) in H. subst t. now split.
Qed.

(** X1. The traversal terminates on a finite tree: when the subtree below
    [offset] is no deeper than [fuel], the traversal with that fuel returns a
    result for every random number, pdf factor and split flag, and any
    larger fuel returns the same result. *)
Theorem traversal_terminates
    {A : Arith} {T : KernelTypes} {Rd : Radiance} {LT : LightTree} {Sh : Shading}
    (fuel fuel' : nat) (kg : KernelGlobals) (randu randv : float) (offset : int)
    (pdf_factor : float) (can_split : bool) (throughput : float3) (L : PathRadiance)
    (state : PathState) (sd emission_sd : ShaderData) (num_lights num_lights_fail : int)
    (paths : list (list bool * int)) :
  leaf_paths fuel kg offset = Some paths ->
  (fuel <= fuel')%nat ->
  exists result,
    accum_light_tree_contribution fuel kg randu randv offset pdf_factor can_split
      throughput L state sd emission_sd num_lights num_lights_fail = Some result /\
    accum_light_tree_contribution fuel' kg randu randv offset pdf_factor can_split
      throughput L state sd emission_sd num_lights num_lights_fail = Some result.
Proof.
  intros Hpaths Hle.
  destruct (accum_enough_fuel fuel kg randv throughput state sd emission_sd offset paths
              Hpaths randu pdf_factor can_split L num_lights num_lights_fail)
    as [result H].
  exists result. split; [ exact H | ].
  now apply accum_fuel_le with (fuel := fuel).
Qed.

Lemma traversal_terminates_witness :
  exists result,
    accum_light_tree_contribution (A := IEEE) (LT := Scene.tree (fun _ => Sample.flt 1 1))
      (Sh := Scene.shading (A := IEEE) (Sample.flt 1 2) false Scene.ones 0 Scene.ones
               (Sample.flt 1 2))
      7 (Sample.globals (Sample.flt 1 2) Sample.unit_box) (Sample.flt 1 4)
      (Sample.flt 1 4) 0 (Sample.flt 1 1) true Scene.ones Scene.dark
      (Scene.state0 (Sample.flt 1 4)) Scene.sd0 Scene.sd0 0 0 = Some result.
Proof.
  destruct (traversal_terminates (A := IEEE) (LT := Scene.tree (fun _ => Sample.flt 1 1))
              (Sh := Scene.shading (A := IEEE) (Sample.flt 1 2) false Scene.ones 0
                       Scene.ones (Sample.flt 1 2))
              3 7 (Sample.globals (Sample.flt 1 2) Sample.unit_box) (Sample.flt 1 4)
              (Sample.flt 1 4) 0 (Sample.flt 1 1) true Scene.ones Scene.dark
              (Scene.state0 (Sample.flt 1 4)) Scene.sd0 Scene.sd0 0 0
              [([true; true], 8); ([true; false], 12); ([false], 16)]
              eq_refl ltac:(lia))
    as [result [_ H]].
  exists result. exact H.
Defined.

(** X2. A threshold of 0 switches splitting off: whatever the split flag,
    the traversal follows one path and does the work of its end, a single
    leaf or a node whose children both have importance zero. *)
Theorem threshold_zero_follows_one_path
    {T : KernelTypes} {Rd : @Radiance IEEE T} {LT : @LightTree IEEE}
    {Sh : @Shading IEEE T Rd}
    (fuel : nat) (kg : @KernelGlobals IEEE) (randu randv : @float IEEE) (offset : int)
    (pdf_factor : @float IEEE) (can_split : bool) (throughput : @float3 IEEE)
    (L : PathRadiance) (state : PathState) (sd emission_sd : ShaderData)
    (num_lights num_lights_fail : int) :
  f_eqb (splitting_threshold kg) f_zero = true ->
  accum_light_tree_contribution fuel kg randu randv offset pdf_factor can_split
    throughput L state sd emission_sd num_lights num_lights_fail
  = option_map
      (contribution_at kg randv throughput L state sd emission_sd num_lights num_lights_fail)
      (descend fuel kg (sd_P sd) (sd_N sd) randu offset pdf_factor).
Proof.
  intros Hzero. apply IEEE_threshold_zero in Hzero.
  rewrite <- accum_no_split_descend.
  destruct can_split; [ | reflexivity ].
  destruct fuel as [ | fuel]; [ reflexivity | ].
  rewrite !accum_unfold.
  now rewrite (split_threshold_zero kg (sd_P sd) offset Hzero).
Qed.

Lemma threshold_zero_follows_one_path_witness :
  accum_light_tree_contribution (A := IEEE)
    (LT := Scene.two_leaves (A := IEEE) (Sample.flt 3 1) (Sample.flt 1 1))
    (Sh := Scene.shading (A := IEEE) (Sample.flt 1 2) false Scene.ones 0 Scene.ones
             (Sample.flt 1 2))
    2 (Sample.globals Sample.zero []) (Sample.flt 9 10) (Sample.flt 1 2) 0
    (Sample.flt 1 1) true Scene.ones Scene.dark (Scene.state0 (Sample.flt 1 4))
    Scene.sd0 Scene.sd0 0 0
  = Some ({| visible := Sample.vec (Sample.flt 1 1) (Sample.flt 1 1) (Sample.flt 1 1);
             total_light := Sample.vec (Sample.flt 1 1) (Sample.flt 1 1) (Sample.flt 1 1) |},
          1, 0).
Proof.
  rewrite (threshold_zero_follows_one_path (Sh := Scene.shading (A := IEEE) (Sample.flt 1 2)
             false Scene.ones 0 Scene.ones (Sample.flt 1 2))); reflexivity.
Defined.

(** X3. A threshold of 1 splits everywhere: started with the split flag on a
    finite subtree, the traversal does the work of every leaf, from left to
    right, each with the same two random numbers and the same pdf factor. *)
Theorem threshold_one_visits_every_leaf
    {T : KernelTypes} {Rd : @Radiance IEEE T} {LT : @LightTree IEEE}
    {Sh : @Shading IEEE T Rd}
    (fuel : nat) (kg : @KernelGlobals IEEE) (randu randv : @float IEEE) (offset : int)
    (pdf_factor : @float IEEE) (throughput : @float3 IEEE)
    (L : PathRadiance) (state : PathState) (sd emission_sd : ShaderData)
    (num_lights num_lights_fail : int) (paths : list (list bool * int)) :
  f_eqb (splitting_threshold kg) f_one = true ->
  leaf_paths fuel kg offset = Some paths ->
  accum_light_tree_contribution fuel kg randu randv offset pdf_factor true throughput L
    state sd emission_sd num_lights num_lights_fail
  = Some (fold_left (visit_leaf kg randu randv pdf_factor throughput state sd emission_sd)
            (map snd paths) (L, num_lights, num_lights_fail)).
Proof.
  intros Hone Hpaths. apply IEEE_threshold_one in Hone. destruct Hone as [H0 H1].
  now apply accum_split_everywhere.
Qed.

Lemma threshold_one_visits_every_leaf_witness :
  accum_light_tree_contribution (A := IEEE) (LT := Scene.tree (fun _ => Sample.flt 1 1))
    (Sh := Scene.shading (A := IEEE) (Sample.flt 1 2) false Scene.ones 0 Scene.ones
             (Sample.flt 1 2))
    3 (Sample.globals (Sample.flt 1 1) Sample.unit_box) (Sample.flt 1 4)
    (Sample.flt 1 4) 0 (Sample.flt 1 1) true Scene.ones Scene.dark
    (Scene.state0 (Sample.flt 1 4)) Scene.sd0 Scene.sd0 0 0
  = Some ({| visible := Sample.vec (Sample.flt 3 1) (Sample.flt 3 1) (Sample.flt 3 1);
             total_light := Sample.vec (Sample.flt 3 1) (Sample.flt 3 1) (Sample.flt 3 1) |},
          3, 0).
Proof.
  rewrite (threshold_one_visits_every_leaf
             (LT := Scene.tree (fun _ => Sample.flt 1 1))
             (Sh := Scene.shading (A := IEEE) (Sample.flt 1 2) false Scene.ones 0
                      Scene.ones (Sample.flt 1 2))
             3 (Sample.globals (Sample.flt 1 1) Sample.unit_box) (Sample.flt 1 4)
             (Sample.flt 1 4) 0 (Sample.flt 1 1) Scene.ones Scene.dark
             (Scene.state0 (Sample.flt 1 4)) Scene.sd0 Scene.sd0 0 0
             [([true; true], 8); ([true; false], 12); ([false], 16)] eq_refl eq_refl).
  reflexivity.
Defined.

(** X4. Without splitting at most one light is sampled: the traversal either
    counts one sampled light, or counts one failed branch and leaves the
    accumulator alone, or changes nothing at all (a leaf that does not hold
    exactly one emitter). *)
Theorem no_split_samples_at_most_one_light
    {A : Arith} {T : KernelTypes} {Rd : Radiance} {LT : LightTree} {Sh : Shading}
    (fuel : nat) (kg : KernelGlobals) (randu randv : float) (offset : int)
    (pdf_factor : float) (throughput : float3) (L : PathRadiance)
    (state : PathState) (sd emission_sd : ShaderData) (num_lights num_lights_fail : int)
    (L' : PathRadiance) (num_lights' num_lights_fail' : int) :
  accum_light_tree_contribution fuel kg randu randv offset pdf_factor false throughput L
    state sd emission_sd num_lights num_lights_fail
  = Some (L', num_lights', num_lights_fail') ->
  (num_lights' = int_incr num_lights /\ num_lights_fail' = num_lights_fail) \/
  (L' = L /\ num_lights' = num_lights /\ num_lights_fail' = int_incr num_lights_fail) \/
  (L' = L /\ num_lights' = num_lights /\ num_lights_fail' = num_lights_fail).
Proof.
  rewrite accum_no_split_descend.
  destruct (descend fuel kg (sd_P sd) (sd_N sd) randu offset pdf_factor)
    as [[path leaf u' pf | path node] | ]; cbn [option_map contribution_at];
    [ | | discriminate ].
  - destruct (update_parent_node kg leaf) as [[second did] ne].
    unfold leaf_contribution.
    destruct (ne =? 1).
    + destruct (f_eqb _ f_zero); intros H; injection H as <- <- <-; left; now split.
    + intros H; injection H as <- <- <-. right. right. now repeat split.
  - intros H; injection H as <- <- <-. right. left. now repeat split.
Qed.

Lemma no_split_samples_at_most_one_light_witness :
  (1 = int_incr 0 /\ 0 = 0) \/
  (Scene.dark (A := IEEE) = Scene.dark /\ 1 = 0 /\ 0 = int_incr 0) \/
  (Scene.dark (A := IEEE) = Scene.dark /\ 1 = 0 /\ 0 = 0).
Proof.
  exact (no_split_samples_at_most_one_light (A := IEEE)
           (LT := Scene.tree (fun _ => Sample.flt 1 1))
           (Sh := Scene.shading (A := IEEE) Sample.zero false Scene.ones 0 Scene.ones
                    (Sample.flt 1 2))
           3 (Sample.globals (Sample.flt 1 2) Sample.unit_box) (Sample.flt 1 4)
           (Sample.flt 1 4) 0 (Sample.flt 1 1) Scene.ones Scene.dark
           (Scene.state0 (Sample.flt 1 4)) Scene.sd0 Scene.sd0 0 0 Scene.dark 1 0 eq_refl).
Defined.

(** ** Order of the IEEE comparison *)

Lemma SFcompare_antisym (x y : spec_float) :
  SFcompare y x = option_map CompOpp (SFcompare x y).
Proof.
  destruct x as [[ | ] | [ | ] | | [ | ] m1 e1], y as [[ | ] | [ | ] | | [ | ] m2 e2];
    cbn [SFcompare option_map CompOpp]; try reflexivity;
    rewrite (Z.compare_antisym e1 e2);
    destruct (e1 ?= e2); cbn [CompOpp]; try reflexivity;
    change (Pos.compare_cont Eq m2 m1) with (Pos.compare m2 m1);
    change (Pos.compare_cont Eq m1 m2) with (Pos.compare m1 m2);
    rewrite (Pos.compare_antisym m1 m2); now destruct (m1 ?= m2)%positive.
Qed.

Lemma SFltb_leb_trans (x y z : spec_float) :
  SFltb x y = true -> SFleb y z = true -> SFltb x z = true.
Proof.
  unfold SFltb, SFleb.
  destruct x as [[ | ] | [ | ] | | [ | ] m1 e1], y as [[ | ] | [ | ] | | [ | ] m2 e2],
    z as [[ | ] | [ | ] | | [ | ] m3 e3];
    cbn [SFcompare]; try discriminate; try reflexivity;
    change (Pos.compare_cont Eq m1 m2) with (Pos.compare m1 m2);
    change (Pos.compare_cont Eq m2 m3) with (Pos.compare m2 m3);
    change (Pos.compare_cont Eq m1 m3) with (Pos.compare m1 m3);
    repeat match goal with
      | |- context [Z.compare ?a ?b] => destruct (Z.compare_spec a b)
      | |- context [Pos.compare ?a ?b] => destruct (Pos.compare_spec a b)
      end;
    cbn [CompOpp]; intros; try discriminate; try reflexivity; subst; lia.
Qed.

Lemma SFleb_ltb_trans (x y z : spec_float) :
  SFleb x y = true -> SFltb y z = true -> SFltb x z = true.
Proof.
  unfold SFltb, SFleb.
  destruct x as [[ | ] | [ | ] | | [ | ] m1 e1], y as [[ | ] | [ | ] | | [ | ] m2 e2],
    z as [[ | ] | [ | ] | | [ | ] m3 e3];
    cbn [SFcompare]; try discriminate; try reflexivity;
    change (Pos.compare_cont Eq m1 m2) with (Pos.compare m1 m2);
    change (Pos.compare_cont Eq m2 m3) with (Pos.compare m2 m3);
    change (Pos.compare_cont Eq m1 m3) with (Pos.compare m1 m3);
    repeat match goal with
      | |- context [Z.compare ?a ?b] => destruct (Z.compare_spec a b)
      | |- context [Pos.compare ?a ?b] => destruct (Pos.compare_spec a b)
      end;
    cbn [CompOpp]; intros; try discriminate; try reflexivity; subst; lia.
Qed.

(** ** [split] and the threshold *)

Section SplitLocality.
Context {A : Arith}.

(** The geometry and the score of a node are read from the tree alone. *)
Lemma node_quantities_tree (kg1 kg2 : KernelGlobals) (P : float3) (node_offset : int) :
  light_tree_nodes kg1 = light_tree_nodes kg2 ->
  node_dist_squared kg1 P node_offset = node_dist_squared kg2 P node_offset /\
  node_radius_squared kg1 node_offset = node_radius_squared kg2 node_offset /\
  variance_normalized kg1 P node_offset = variance_normalized kg2 P node_offset.
Proof.
  intros H.
  unfold variance_normalized, split_variance, node_dist_squared, node_radius_squared,
    node_centroid, node_bboxMax, node_bboxMin.
  now rewrite H.
Qed.

End SplitLocality.

(** X8. The threshold is a monotone knob on [0,1]: for two configurations
    over the same tree whose thresholds satisfy [0 <= t1 <= t2 <= 1], a node
    that is split under [t1] at a shading point is split under [t2]. *)
Theorem split_monotone_in_threshold
    (kg1 kg2 : @KernelGlobals IEEE) (P : @float3 IEEE) (node_offset : int) :
  light_tree_nodes kg1 = light_tree_nodes kg2 ->
  d_leb d_zero (double_of_float (splitting_threshold kg1)) = true ->
  d_leb (double_of_float (splitting_threshold kg1))
        (double_of_float (splitting_threshold kg2)) = true ->
  d_leb (double_of_float (splitting_threshold kg2)) d_one = true ->
  split kg1 P node_offset = true ->
  split kg2 P node_offset = true.
Proof.
  intros Htree Hpos Hle Hone.
  destruct (node_quantities_tree kg1 kg2 P node_offset Htree) as (Hd & Hr & Hv).
  unfold split. rewrite Hd, Hr, Hv.
  set (t1 := double_of_float (splitting_threshold kg1)) in *.
  set (t2 := double_of_float (splitting_threshold kg2)) in *.
  set (inside := d_leb (node_dist_squared kg2 P node_offset)
                   (node_radius_squared kg2 node_offset)).
  set (score := variance_normalized kg2 P node_offset).
  clearbody t1 t2 inside score. clear Hd Hr Hv Htree.
  change (SFleb (S754_zero false) t1 = true) in Hpos.
  change (SFleb t1 t2 = true) in Hle.
  change (SFleb t2 (Binary64.of_Z 1) = true) in Hone.
  change ((if SFeqb t1 (S754_zero false) then false
           else if SFeqb t1 (Binary64.of_Z 1) then true
           else if inside then true else SFltb score t1) = true ->
          (if SFeqb t2 (S754_zero false) then false
           else if SFeqb t2 (Binary64.of_Z 1) then true
           else if inside then true else SFltb score t2) = true).
  destruct (SFeqb t1 (S754_zero false)) eqn:Hz1; [ discriminate | ].
  assert (Hpos1 : SFltb (S754_zero false) t1 = true).
  { unfold SFleb in Hpos. unfold SFeqb in Hz1. unfold SFltb.
    rewrite (SFcompare_antisym (S754_zero false) t1) in Hz1.
    destruct (SFcompare (S754_zero false) t1) as [[ | | ] | ];
      cbn in Hz1; try discriminate; reflexivity. }
  rewrite (SFltb_zero_not_eqb t2 (SFltb_leb_trans _ _ _ Hpos1 Hle)).
  destruct (SFeqb t1 (Binary64.of_Z 1)) eqn:Ho1.
  - intros _.
    assert (Ho2 : SFeqb t2 (Binary64.of_Z 1) = true).
    { unfold SFeqb in *. unfold SFleb in Hone.
      destruct (SFcompare t2 (Binary64.of_Z 1)) as [[ | | ] | ] eqn:Hc;
        try discriminate; [ reflexivity | ].
      assert (Hlt : SFltb t1 (Binary64.of_Z 1) = true)
        by (apply (SFleb_ltb_trans t1 t2); [ exact Hle | unfold SFltb; now rewrite Hc ]).
      unfold SFltb in Hlt.
      destruct (SFcompare t1 (Binary64.of_Z 1)) as [[ | | ] | ]; discriminate. }
    now rewrite Ho2.
  - destruct (SFeqb t2 (Binary64.of_Z 1)); [ reflexivity | ].
    destruct inside; [ reflexivity | ].
    intros Hs. exact (SFltb_leb_trans _ _ _ Hs Hle).
Qed.

Lemma split_monotone_in_threshold_witness :
  split (Sample.globals (Sample.flt 99 100) Sample.unit_box)
    (Sample.vec (Sample.flt 3 1) Sample.zero Sample.zero) 0 = true.
Proof.
  apply (split_monotone_in_threshold
           (Sample.globals (Sample.flt 95 100) Sample.unit_box)
           (Sample.globals (Sample.flt 99 100) Sample.unit_box));
    reflexivity.
Defined.

(** ** Connecting a path to the lights *)

Section ConnectLightFacts.
Context {A : Arith} {T : KernelTypes} {Rd : Radiance} {LT : LightTree} {Sh : Shading}
        {LS : LightSelection}.

Lemma loop_range_nonpositive (n : int) : n <= 0 -> loop_range n = [].
Proof.
  intros H. unfold loop_range.
  replace (Z.to_nat n) with 0%nat by lia. reflexivity.
Qed.

Lemma loop_range_positive (n : int) :
  0 < n -> exists rest, loop_range n = 0 :: rest.
Proof.
  intros H. unfold loop_range.
  destruct (Z.to_nat n) as [ | k] eqn:Hk; [ lia | ].
  eexists. reflexivity.
Qed.

Lemma loop_range_bounds (n i : int) : In i (loop_range n) -> 0 <= i < n.
Proof.
  unfold loop_range. rewrite in_map_iff. intros [k [<- Hk]].
  apply in_seq in Hk. lia.
Qed.

(** Once an assertion has failed the mesh loop does nothing more. *)
Lemma mesh_loop_failed (kg : KernelGlobals) (sd emission_sd : ShaderData)
    (state : PathState) (throughput : float3) (num_samples : int)
    (num_samples_inv : float) (js : list int) :
  fold_left (mesh_sample_step kg sd emission_sd state throughput num_samples
               num_samples_inv) js AssertionFailed
  = AssertionFailed.
Proof.
  induction js as [ | j js IH]; [ reflexivity | exact IH ].
Qed.

(** Without the light BVH the mesh loop runs to its end. *)
Lemma mesh_loop_done (kg : KernelGlobals) (sd emission_sd : ShaderData)
    (state : PathState) (throughput : float3) (num_samples : int)
    (num_samples_inv : float) (js : list int) :
  use_light_bvh kg = false ->
  forall acc, exists acc',
    fold_left (mesh_sample_step kg sd emission_sd state throughput num_samples
                 num_samples_inv) js (Done acc)
    = Done acc'.
Proof.
  intros Hbvh.
  induction js as [ | j js IH]; intros acc; [ now exists acc | ].
  cbn [fold_left]. unfold mesh_sample_step at 2. cbn [bind].
  destruct (path_branched_rng_2D kg (ps_rng_hash state) state j num_samples PRNG_LIGHT_U)
    as [light_u light_v].
  rewrite Hbvh.
  destruct (light_sample kg _ light_v (sd_time sd) (sd_P sd) (sd_N sd) (ps_bounce state));
    apply IH.
Qed.

End ConnectLightFacts.

(** X10. In the tree group the sample settings are not used: when the light
    BVH is on, the threshold is not 0 and the group drawn is the tree, the
    branched connect routine is the traversal from the root with the group
    probability as pdf factor, and its outcome is the same for every
    [num_samples_adjust] and [sample_all_lights]. *)
Theorem tree_group_ignores_sample_settings
    {A : Arith} {T : KernelTypes} {Rd : Radiance} {LT : LightTree} {Sh : Shading}
    {LS : LightSelection}
    (fuel : nat) (kg : KernelGlobals) (sd emission_sd : ShaderData) (state : PathState)
    (throughput : float3) (L : PathRadiance)
    (randu randv randu' : float) (group : int) :
  feature_EMISSION = true ->
  has_flag (sd_flag sd) SD_BSDF_HAS_EVAL = true ->
  use_light_bvh kg = true ->
  f_eqb (splitting_threshold kg) f_zero = false ->
  path_state_rng_2D kg state PRNG_LIGHT_U = (randu, randv) ->
  light_group_distribution_sample kg randu = (group, randu') ->
  (group =? LIGHTGROUP_TREE) = true ->
  forall (num_samples_adjust num_samples_adjust' : float)
         (sample_all_lights sample_all_lights' : int),
  kernel_branched_path_surface_connect_light fuel kg sd emission_sd state throughput
    num_samples_adjust L sample_all_lights
  = kernel_branched_path_surface_connect_light fuel kg sd emission_sd state throughput
      num_samples_adjust' L sample_all_lights' /\
  kernel_branched_path_surface_connect_light fuel kg sd emission_sd state throughput
    num_samples_adjust L sample_all_lights
  = match accum_light_tree_contribution fuel kg randu' randv 0
            (light_group_sample_prob kg group) true throughput L state sd emission_sd
            0 0 with
    | Some (L', _, _) => Done L'
    | None => OutOfFuel
    end.
Proof.
  intros Hem Heval Hbvh Hthr Hrng Hgroup Htree adj adj' sal sal'.
  unfold kernel_branched_path_surface_connect_light.
  rewrite Hem, Heval, Hbvh, Hthr, Hrng, Hgroup, Htree. cbn [negb andb].
  split; reflexivity.
Qed.

Lemma tree_group_ignores_sample_settings_witness :
  let Sh := Scene.shading (A := IEEE) (Sample.flt 1 2) false Scene.ones 0 Scene.ones
              (Sample.flt 1 2) in
  let LT := Scene.tree (A := IEEE) (fun _ => Sample.flt 1 1) in
  let LS := Lights.selection (A := IEEE) true 0 2 1 (Sample.flt 1 1) in
  let kg := Sample.globals (Sample.flt 1 2) Sample.unit_box in
  let state := Scene.state0 (Sample.flt 1 4) in
  kernel_branched_path_surface_connect_light (LT := LT) (Sh := Sh) (LS := LS) 3 kg
    Scene.sd0 Scene.sd0 state Scene.ones (Sample.flt 1 1) Scene.dark 0
  = kernel_branched_path_surface_connect_light (LT := LT) (Sh := Sh) (LS := LS) 3 kg
      Scene.sd0 Scene.sd0 state Scene.ones (Sample.flt 1 2) Scene.dark 1.
Proof.
  intros Sh LT LS kg state.
  exact (proj1 (tree_group_ignores_sample_settings (LT := LT) (Sh := Sh) (LS := LS) 3 kg
                  Scene.sd0 Scene.sd0 state Scene.ones Scene.dark
                  (Sample.flt 1 2) (Sample.flt 1 2) (Sample.flt 1 2) 0
                  eq_refl eq_refl eq_refl eq_refl eq_refl eq_refl eq_refl
                  (Sample.flt 1 1) (Sample.flt 1 2) 0 1)).
Defined.

(** X11. The mesh light loop asserts that the light BVH is off, yet it is
    reached with the BVH on when the threshold is 0: with
    [sample_all_lights] set, mesh lights present and at least one mesh
    sample, the branched connect routine then trips [kernel_assert]. *)
Theorem mesh_sampling_trips_assertion
    {A : Arith} {T : KernelTypes} {Rd : Radiance} {LT : LightTree} {Sh : Shading}
    {LS : LightSelection}
    (fuel : nat) (kg : KernelGlobals) (sd emission_sd : ShaderData) (state : PathState)
    (throughput : float3) (num_samples_adjust : float) (L : PathRadiance)
    (sample_all_lights : int) :
  feature_EMISSION = true ->
  has_flag (sd_flag sd) SD_BSDF_HAS_EVAL = true ->
  use_light_bvh kg = true ->
  f_eqb (splitting_threshold kg) f_zero = true ->
  (sample_all_lights =? 0) = false ->
  f_eqb (pdf_triangles kg) f_zero = false ->
  0 < ceil_to_int (f_mul num_samples_adjust (float_of_int (mesh_light_samples kg))) ->
  kernel_branched_path_surface_connect_light fuel kg sd emission_sd state throughput
    num_samples_adjust L sample_all_lights
  = AssertionFailed.
Proof.
  intros Hem Heval Hbvh Hthr Hall Hmesh Hn.
  unfold kernel_branched_path_surface_connect_light.
  rewrite Hem, Heval, Hbvh, Hthr, Hall, Hmesh. cbn [negb andb].
  destruct (loop_range_positive _ Hn) as [rest ->].
  cbn [fold_left]. unfold mesh_sample_step at 2. cbn [bind].
  destruct (path_branched_rng_2D kg (ps_rng_hash state) state 0 _ PRNG_LIGHT_U)
    as [light_u light_v].
  rewrite Hbvh. now rewrite mesh_loop_failed.
Qed.

Lemma mesh_sampling_trips_assertion_witness :
  let Sh := Scene.shading (A := IEEE) (Sample.flt 1 2) false Scene.ones 0 Scene.ones
              (Sample.flt 1 2) in
  let LT := Scene.tree (A := IEEE) (fun _ => Sample.flt 1 1) in
  let LS := Lights.selection (A := IEEE) true 0 2 1 (Sample.flt 1 1) in
  kernel_branched_path_surface_connect_light (LT := LT) (Sh := Sh) (LS := LS) 3
    (Sample.globals Sample.zero Sample.unit_box) Scene.sd0 Scene.sd0
    (Scene.state0 (Sample.flt 1 4)) Scene.ones (Sample.flt 1 1) Scene.dark 1
  = AssertionFailed.
Proof.
  intros Sh LT LS.
  apply (mesh_sampling_trips_assertion (LT := LT) (Sh := Sh) (LS := LS));
    reflexivity.
Defined.

(** X12. With the light BVH off the branched connect routine neither trips
    an assertion nor walks the tree: it ends with an accumulator that is the
    same for every fuel. *)
Theorem connect_without_bvh_is_done
    {A : Arith} {T : KernelTypes} {Rd : Radiance} {LT : LightTree} {Sh : Shading}
    {LS : LightSelection}
    (kg : KernelGlobals) (sd emission_sd : ShaderData) (state : PathState)
    (throughput : float3) (num_samples_adjust : float) (L : PathRadiance)
    (sample_all_lights : int) :
  use_light_bvh kg = false ->
  exists L',
    forall fuel : nat,
    kernel_branched_path_surface_connect_light fuel kg sd emission_sd state throughput
      num_samples_adjust L sample_all_lights
    = Done L'.
Proof.
  intros Hbvh.
  unfold kernel_branched_path_surface_connect_light. rewrite Hbvh. cbn [andb].
  destruct (negb feature_EMISSION); [ now exists L | ].
  destruct (negb (has_flag (sd_flag sd) SD_BSDF_HAS_EVAL)); [ now exists L | ].
  destruct (negb (sample_all_lights =? 0)).
  - destruct (negb (f_eqb (pdf_triangles kg) f_zero)); [ | eexists; reflexivity ].
    destruct (mesh_loop_done kg sd emission_sd state throughput
                (ceil_to_int (f_mul num_samples_adjust
                                (float_of_int (mesh_light_samples kg))))
                (f_div num_samples_adjust
                   (float_of_int
                      (ceil_to_int (f_mul num_samples_adjust
                                      (float_of_int (mesh_light_samples kg))))))
                (loop_range
                   (ceil_to_int (f_mul num_samples_adjust
                                   (float_of_int (mesh_light_samples kg)))))
                Hbvh
                (fold_left
                   (lamp_step kg sd emission_sd state throughput num_samples_adjust)
                   (loop_range (num_all_lights kg)) (L, initial_light_ray sd)))
      as [acc' Hacc].
    exists (fst acc'). intros _. now rewrite Hacc.
  - destruct (path_state_rng_2D kg state PRNG_LIGHT_U) as [light_u light_v].
    destruct (light_sample kg light_u light_v (sd_time sd) (sd_P sd) (sd_N sd)
                (ps_bounce state)); eexists; reflexivity.
Qed.

Lemma connect_without_bvh_is_done_witness :
  let Sh := Scene.shading (A := IEEE) (Sample.flt 1 2) false Scene.ones 0 Scene.ones
              (Sample.flt 1 2) in
  let LT := Scene.tree (A := IEEE) (fun _ => Sample.flt 1 1) in
  let LS := Lights.selection (A := IEEE) false 0 2 1 (Sample.flt 1 1) in
  exists L',
    kernel_branched_path_surface_connect_light (LT := LT) (Sh := Sh) (LS := LS) 0
      (Sample.globals Sample.zero Sample.unit_box) Scene.sd0 Scene.sd0
      (Scene.state0 (Sample.flt 1 4)) Scene.ones (Sample.flt 1 1) Scene.dark 1
    = Done L'.
Proof.
  intros Sh LT LS.
  destruct (connect_without_bvh_is_done (LT := LT) (Sh := Sh) (LS := LS)
              (Sample.globals Sample.zero Sample.unit_box) Scene.sd0 Scene.sd0
              (Scene.state0 (Sample.flt 1 4)) Scene.ones (Sample.flt 1 1) Scene.dark 1
              eq_refl) as [L' H].
  exists L'. exact (H 0%nat).
Defined.

(** X13. The unbranched connect routine is the branched one at one sample:
    with direct light on, it gives the result of
    [kernel_branched_path_surface_connect_light] called with
    [num_samples_adjust] 1 and with [sample_all_lights] 1 on a shadow
    catcher path and 0 elsewhere; off shadow catcher paths this needs the
    branched routine not to enter the light tree (light BVH off, or
    threshold 0), since the unbranched routine has no such branch. *)
Theorem unbranched_connect_is_branched_single_sample
    {A : Arith} {T : KernelTypes} {Rd : Radiance} {LT : LightTree} {Sh : Shading}
    {LS : LightSelection}
    (fuel : nat) (kg : KernelGlobals) (sd emission_sd : ShaderData) (throughput : float3)
    (state : PathState) (L : PathRadiance) :
  let catcher := feature_SHADOW_TRICKS && has_flag (ps_flag state) PATH_RAY_SHADOW_CATCHER in
  use_direct_light kg = true ->
  (catcher = false ->
   use_light_bvh kg && negb (f_eqb (splitting_threshold kg) f_zero) = false) ->
  kernel_path_surface_connect_light fuel kg sd emission_sd throughput state L
  = kernel_branched_path_surface_connect_light fuel kg sd emission_sd state throughput
      f_one L (if catcher then 1 else 0).
Proof.
  intros catcher Hdirect Htree.
  unfold kernel_path_surface_connect_light. fold catcher. rewrite Hdirect.
  cbn [andb].
  destruct catcher.
  - unfold kernel_branched_path_surface_connect_light.
    destruct (negb feature_EMISSION); [ reflexivity | ].
    now destruct (negb (has_flag (sd_flag sd) SD_BSDF_HAS_EVAL)).
  - unfold kernel_branched_path_surface_connect_light.
    rewrite (Htree eq_refl).
    destruct (negb feature_EMISSION); [ reflexivity | ].
    destruct (negb (has_flag (sd_flag sd) SD_BSDF_HAS_EVAL)); [ reflexivity | ].
    change (negb (0 =? 0)) with false. cbv iota.
    destruct (path_state_rng_2D kg state PRNG_LIGHT_U) as [light_u light_v].
    reflexivity.
Qed.

Lemma unbranched_connect_is_branched_single_sample_witness :
  let Sh := Scene.shading (A := IEEE) (Sample.flt 1 2) false Scene.ones 0 Scene.ones
              (Sample.flt 1 2) in
  let LT := Scene.tree (A := IEEE) (fun _ => Sample.flt 1 1) in
  let LS := Lights.selection (A := IEEE) true 0 2 1 (Sample.flt 1 1) in
  let kg := Sample.globals Sample.zero Sample.unit_box in
  kernel_path_surface_connect_light (LT := LT) (Sh := Sh) (LS := LS) 3 kg Scene.sd0
    Scene.sd0 Scene.ones (Scene.state0 (Sample.flt 1 4)) Scene.dark
  = kernel_branched_path_surface_connect_light (LT := LT) (Sh := Sh) (LS := LS) 3 kg
      Scene.sd0 Scene.sd0 (Scene.state0 (Sample.flt 1 4)) Scene.ones f_one Scene.dark 0.
Proof.
  intros Sh LT LS kg.
  apply (unbranched_connect_is_branched_single_sample (LT := LT) (Sh := Sh) (LS := LS)
           3 kg Scene.sd0 Scene.sd0 Scene.ones (Scene.state0 (Sample.flt 1 4)) Scene.dark);
    reflexivity.
Defined.

(** X14. Nothing to sample: when all lights are sampled, every lamp has
    reached its bounce limit or has no sample, and there are no mesh lights,
    the branched connect routine leaves the accumulator as it was. *)
Theorem connect_with_nothing_to_sample
    {A : Arith} {T : KernelTypes} {Rd : Radiance} {LT : LightTree} {Sh : Shading}
    {LS : LightSelection}
    (fuel : nat) (kg : KernelGlobals) (sd emission_sd : ShaderData) (state : PathState)
    (throughput : float3) (num_samples_adjust : float) (L : PathRadiance)
    (sample_all_lights : int) :
  use_light_bvh kg && negb (f_eqb (splitting_threshold kg) f_zero) = false ->
  (sample_all_lights =? 0) = false ->
  f_eqb (pdf_triangles kg) f_zero = true ->
  (forall i, 0 <= i < num_all_lights kg ->
     light_select_reached_max_bounces kg i (ps_bounce state) = true \/
     ceil_to_int (f_mul num_samples_adjust
                    (float_of_int (light_select_num_samples kg i))) <= 0) ->
  kernel_branched_path_surface_connect_light fuel kg sd emission_sd state throughput
    num_samples_adjust L sample_all_lights
  = Done L.
Proof.
  intros Hbvh Hall Hmesh Hlamps.
  unfold kernel_branched_path_surface_connect_light.
  rewrite Hbvh, Hall, Hmesh. cbn [negb].
  destruct (negb feature_EMISSION); [ reflexivity | ].
  destruct (negb (has_flag (sd_flag sd) SD_BSDF_HAS_EVAL)); [ reflexivity | ].
  assert (Hfold : forall (lamps : list int) acc,
            (forall i, In i lamps -> 0 <= i < num_all_lights kg) ->
            fold_left (lamp_step kg sd emission_sd state throughput num_samples_adjust)
              lamps acc = acc).
  { induction lamps as [ | i lamps IH]; intros acc Hin; [ reflexivity | ].
    cbn [fold_left]. unfold lamp_step at 2.
    destruct (Hlamps i (Hin i (or_introl eq_refl))) as [Hmax | Hzero].
    - rewrite Hmax. apply IH. intros k Hk. apply Hin. now right.
    - destruct (light_select_reached_max_bounces kg i (ps_bounce state)).
      + apply IH. intros k Hk. apply Hin. now right.
      + rewrite (loop_range_nonpositive _ Hzero). cbn [fold_left].
        apply IH. intros k Hk. apply Hin. now right. }
  rewrite Hfold; [ reflexivity | ].
  intros i Hi. now apply loop_range_bounds.
Qed.

Lemma connect_with_nothing_to_sample_witness :
  let Sh := Scene.shading (A := IEEE) (Sample.flt 1 2) false Scene.ones 0 Scene.ones
              (Sample.flt 1 2) in
  let LT := Scene.tree (A := IEEE) (fun _ => Sample.flt 1 1) in
  let LS := Lights.selection (A := IEEE) false 0 2 0 Sample.zero in
  kernel_branched_path_surface_connect_light (LT := LT) (Sh := Sh) (LS := LS) 0
    (Sample.globals (Sample.flt 1 2) Sample.unit_box) Scene.sd0 Scene.sd0
    (Scene.state0 (Sample.flt 1 4)) Scene.ones (Sample.flt 1 1) Scene.dark 1
  = Done Scene.dark.
Proof.
  intros Sh LT LS.
  apply (connect_with_nothing_to_sample (LT := LT) (Sh := Sh) (LS := LS));
    try reflexivity.
  intros i _. right. discriminate.
Defined.

(** ** More on the surface bounce *)

Lemma SFcompare_refl (x : spec_float) : x <> S754_nan -> SFcompare x x = Some Eq.
Proof.
  destruct x as [[ | ] | [ | ] | | [ | ] m e]; intros H; try reflexivity;
    try (now elim H); cbn [SFcompare]; rewrite Z.compare_refl;
    change (Pos.compare_cont Eq m m) with (Pos.compare m m);
    now rewrite Pos.compare_refl.
Qed.

Lemma fmin_le_left (x y : spec_float) :
  x <> S754_nan -> SFleb (Binary32.fmin x y) x = true.
Proof.
  intros Hx. unfold Binary32.fmin, SFleb.
  destruct (SFcompare x y) as [[ | | ] | ] eqn:Hc.
  - rewrite (SFcompare_antisym x y), Hc. reflexivity.
  - now rewrite SFcompare_refl.
  - rewrite (SFcompare_antisym x y), Hc. reflexivity.
  - destruct x; try (now elim Hx); now rewrite SFcompare_refl.
Qed.

Lemma fmin_le_right (x y : spec_float) :
  y <> S754_nan -> SFleb (Binary32.fmin x y) y = true.
Proof.
  intros Hy. unfold Binary32.fmin, SFleb.
  destruct (SFcompare x y) as [[ | | ] | ] eqn:Hc.
  - now rewrite SFcompare_refl.
  - now rewrite Hc.
  - now rewrite SFcompare_refl.
  - destruct x; try (now rewrite SFcompare_refl);
      destruct y; try (now elim Hy); discriminate.
Qed.

Section BounceFacts.
Context {A : Arith} {T : KernelTypes} {Rd : Radiance} {Sh : Shading}.

(** The MIS fields after a successful bounce of the unbranched routine on a
    label that is not transparent. *)
Lemma path_bounce_mis_fields (kg : KernelGlobals) (sd : ShaderData)
    (throughput : float3) (state : PathState) (L_state : PathRadianceState) (ray : Ray)
    (bsdf_u bsdf_v : float) (label : int) (bsdf_eval : BsdfEval)
    (omega_in : float3) (domega_in : differential3) (bsdf_pdf : float) :
  (forall st l,
     ps_ray_pdf (path_state_next kg st l) = ps_ray_pdf st /\
     ps_min_ray_pdf (path_state_next kg st l) = ps_min_ray_pdf st) ->
  has_flag (sd_flag sd) SD_BSDF = true ->
  path_state_rng_2D kg state PRNG_BSDF_U = (bsdf_u, bsdf_v) ->
  shader_bsdf_sample kg sd bsdf_u bsdf_v
    = (label, bsdf_eval, omega_in, domega_in, bsdf_pdf) ->
  has_flag label LABEL_TRANSPARENT = false ->
  br_ok (kernel_path_surface_bounce kg sd throughput state L_state ray) = true ->
  ps_ray_pdf (br_state (kernel_path_surface_bounce kg sd throughput state L_state ray))
    = bsdf_pdf /\
  ps_min_ray_pdf (br_state (kernel_path_surface_bounce kg sd throughput state L_state ray))
    = fminf bsdf_pdf (ps_min_ray_pdf state).
Proof.
  intros Hnext Hflag Hrng Hsample Hlabel.
  unfold kernel_path_surface_bounce.
  rewrite Hflag, Hrng, Hsample, Hlabel.
  destruct (f_eqb bsdf_pdf f_zero || bsdf_eval_is_zero bsdf_eval);
    [ cbn; discriminate | ].
  destruct (path_radiance_bsdf_bounce kg L_state throughput bsdf_eval bsdf_pdf
              (ps_bounce state) label) as [L_state' throughput'].
  cbn [br_ok br_state negb]. intros _.
  destruct (volume_enter_exit_pdfs kg sd label
              (path_state_next kg
                 (set_mis state (fminf bsdf_pdf (ps_min_ray_pdf state)) bsdf_pdf
                    (if feature_LAMP_MIS then f_zero else ps_ray_t state)) label))
    as [Hr Hm].
  rewrite Hr, Hm.
  destruct (Hnext (set_mis state (fminf bsdf_pdf (ps_min_ray_pdf state)) bsdf_pdf
                     (if feature_LAMP_MIS then f_zero else ps_ray_t state)) label)
    as [Hr' Hm'].
  rewrite Hr', Hm'. now split.
Qed.

End BounceFacts.

(** X15. A bounce that fails changes nothing that matters: the branched
    routine returns false only with the throughput, the path state, the
    radiance state and the ray as they were; the unbranched routine returns
    false only with the throughput, the radiance state and the ray as they
    were, and with the path state as it was unless the surface has no BSDF
    and [path_state_volume_next] refused the volume bounce. *)
Theorem failed_bounce_is_atomic
    {A : Arith} {T : KernelTypes} {Rd : Radiance} {Sh : Shading}
    (kg : KernelGlobals) (sd : ShaderData) (throughput : float3) (state : PathState)
    (L_state : PathRadianceState) (ray : Ray) :
  (forall sc sample num_samples sum_sample_weight,
     br_ok (kernel_branched_path_surface_bounce kg sd sc sample num_samples throughput
              state L_state ray sum_sample_weight) = false ->
     kernel_branched_path_surface_bounce kg sd sc sample num_samples throughput state
       L_state ray sum_sample_weight
     = untouched throughput state L_state ray) /\
  (br_ok (kernel_path_surface_bounce kg sd throughput state L_state ray) = false ->
   br_throughput (kernel_path_surface_bounce kg sd throughput state L_state ray)
     = throughput /\
   br_L_state (kernel_path_surface_bounce kg sd throughput state L_state ray) = L_state /\
   br_ray (kernel_path_surface_bounce kg sd throughput state L_state ray) = ray /\
   (br_state (kernel_path_surface_bounce kg sd throughput state L_state ray) = state \/
    has_flag (sd_flag sd) SD_BSDF = false /\
    br_state (kernel_path_surface_bounce kg sd throughput state L_state ray)
      = snd (path_state_volume_next kg state))).
Proof.
  split.
  - intros sc sample num_samples sum_sample_weight.
    unfold kernel_branched_path_surface_bounce.
    destruct (path_branched_rng_2D kg (ps_rng_hash state) state sample num_samples
                PRNG_BSDF_U) as [bsdf_u bsdf_v].
    destruct (shader_bsdf_sample_closure kg sd sc bsdf_u bsdf_v)
      as [[[[label bsdf_eval] omega_in] domega_in] bsdf_pdf].
    destruct (f_eqb bsdf_pdf f_zero || bsdf_eval_is_zero bsdf_eval); [ reflexivity | ].
    destruct (path_radiance_bsdf_bounce kg L_state throughput bsdf_eval bsdf_pdf
                (ps_bounce state) label) as [L_state' throughput'].
    cbn [br_ok]. discriminate.
  - unfold kernel_path_surface_bounce.
    destruct (has_flag (sd_flag sd) SD_BSDF).
    + destruct (path_state_rng_2D kg state PRNG_BSDF_U) as [bsdf_u bsdf_v].
      destruct (shader_bsdf_sample kg sd bsdf_u bsdf_v)
        as [[[[label bsdf_eval] omega_in] domega_in] bsdf_pdf].
      destruct (f_eqb bsdf_pdf f_zero || bsdf_eval_is_zero bsdf_eval).
      * cbn. intros _. repeat split. now left.
      * destruct (path_radiance_bsdf_bounce kg L_state throughput bsdf_eval bsdf_pdf
                    (ps_bounce state) label) as [L_state' throughput'].
        cbn [br_ok]. discriminate.
    + destruct (feature_VOLUME && has_flag (sd_flag sd) SD_HAS_ONLY_VOLUME).
      * destruct (path_state_volume_next kg state) as [ok state'].
        destruct ok; cbn [negb br_ok]; [ discriminate | ].
        intros _. cbn. repeat split. right. now split.
      * cbn. intros _. repeat split. now left.
Qed.

Lemma failed_bounce_is_atomic_witness :
  let Sh := Scene.shading (A := IEEE) (Sample.flt 1 2) false Scene.ones 0 Scene.origin
              (Sample.flt 1 2) in
  let kg := Sample.globals (Sample.flt 1 2) Sample.unit_box in
  let state := Scene.state0 (Sample.flt 1 4) in
  kernel_branched_path_surface_bounce (Sh := Sh) kg Scene.sd0 Scene.closure0 0 4
    Scene.ones state Scene.L_state0 Scene.ray0 (Sample.flt 1 1)
  = untouched Scene.ones state Scene.L_state0 Scene.ray0.
Proof.
  intros Sh kg state.
  apply (proj1 (failed_bounce_is_atomic (Sh := Sh) kg Scene.sd0 Scene.ones state
                  Scene.L_state0 Scene.ray0)).
  reflexivity.
Defined.

Section RunningMinimum.
#[local] Existing Instance IEEE.
Context {T : KernelTypes} {Rd : Radiance} {Sh : Shading}.

(** X16. The running minimum is a lower bound: after a successful bounce of
    the unbranched routine on a label that is not transparent, with a
    sampled density that is a number, [min_ray_pdf] is at most [ray_pdf],
    and at most its previous value when that was a number.
    [path_state_next] is taken not to write the two fields. *)
Theorem min_ray_pdf_is_lower_bound
    (kg : KernelGlobals) (sd : ShaderData) (throughput : float3)
    (state : PathState) (L_state : PathRadianceState) (ray : Ray)
    (bsdf_u bsdf_v : float) (label : int) (bsdf_eval : BsdfEval)
    (omega_in : float3) (domega_in : differential3) (bsdf_pdf : float) :
  (forall st l,
     ps_ray_pdf (path_state_next kg st l) = ps_ray_pdf st /\
     ps_min_ray_pdf (path_state_next kg st l) = ps_min_ray_pdf st) ->
  has_flag (sd_flag sd) SD_BSDF = true ->
  path_state_rng_2D kg state PRNG_BSDF_U = (bsdf_u, bsdf_v) ->
  shader_bsdf_sample kg sd bsdf_u bsdf_v
    = (label, bsdf_eval, omega_in, domega_in, bsdf_pdf) ->
  has_flag label LABEL_TRANSPARENT = false ->
  br_ok (kernel_path_surface_bounce kg sd throughput state L_state ray) = true ->
  bsdf_pdf <> S754_nan ->
  let state' := br_state (kernel_path_surface_bounce kg sd throughput state L_state ray) in
  f_leb (ps_min_ray_pdf state') (ps_ray_pdf state') = true /\
  (ps_min_ray_pdf state <> S754_nan ->
   f_leb (ps_min_ray_pdf state') (ps_min_ray_pdf state) = true).
Proof.
  intros Hnext Hflag Hrng Hsample Hlabel Hok Hnum state'.
  destruct (path_bounce_mis_fields kg sd throughput state L_state ray bsdf_u bsdf_v label
              bsdf_eval omega_in domega_in bsdf_pdf Hnext Hflag Hrng Hsample Hlabel Hok)
    as [Hr Hm].
  subst state'. rewrite Hr, Hm.
  split.
  - exact (fmin_le_left bsdf_pdf (ps_min_ray_pdf state) Hnum).
  - intros Hold. exact (fmin_le_right bsdf_pdf (ps_min_ray_pdf state) Hold).
Qed.

End RunningMinimum.

Lemma min_ray_pdf_is_lower_bound_witness :
  let Sh := Scene.shading (A := IEEE) (Sample.flt 1 2) false Scene.ones 0 Scene.ones
              (Sample.flt 1 2) in
  let kg := Sample.globals (Sample.flt 1 2) Sample.unit_box in
  let state := Scene.state0 (Sample.flt 1 4) in
  let state' := br_state (kernel_path_surface_bounce (Sh := Sh) kg Scene.sd0 Scene.ones
                            state Scene.L_state0 Scene.ray0) in
  f_leb (Arith := IEEE) (ps_min_ray_pdf state') (ps_ray_pdf state') = true.
Proof.
  intros Sh kg state state'.
  assert (Hnext : forall st l,
            ps_ray_pdf (path_state_next (Shading := Sh) kg st l) = ps_ray_pdf st /\
            ps_min_ray_pdf (path_state_next (Shading := Sh) kg st l) = ps_min_ray_pdf st)
    by (intros st l; split; reflexivity).
  assert (Hnum : Sample.flt 1 2 <> S754_nan) by discriminate.
  exact (proj1 (min_ray_pdf_is_lower_bound (Sh := Sh) kg Scene.sd0 Scene.ones state
                  Scene.L_state0 Scene.ray0 (Sample.flt 1 2) (Sample.flt 1 2) 0
                  Scene.ones Scene.ones Scene.diff0 (Sample.flt 1 2)
                  Hnext eq_refl eq_refl eq_refl eq_refl eq_refl Hnum)).
Defined.
